(** * HubSpot MCP server: the tool dispatcher of [src/index.js]

    A shallow embedding of the request handler registered for
    [CallToolRequestSchema], of the helper [hubspotRequest] it calls and of
    the tool catalogue, followed by the properties the specification states
    about them.

    JavaScript values are the JSON data model plus [undefined]; numbers are
    IEEE-754 binary64 values ([SpecFloat], precision 53, [emax] 1024);
    exceptions and the outbound HTTP calls are threaded through a small
    monad that records every request handed to [fetch]. *)

From Stdlib Require Import ZArith NArith List String Ascii Bool Lia Permutation.
From Stdlib Require Import Floats.SpecFloat.
From Stdlib Require Import DecimalString.
Import ListNotations.
Open Scope string_scope.
Set Warnings "-register-all".

(** ** JavaScript values *)

Module JS.

(** Numbers: binary64. *)
Definition number := spec_float.
Definition prec : Z := 53.
Definition emax : Z := 1024.

Definition of_Z (z : Z) : number := binary_normalize prec emax z 0 false.
Definition add (x y : number) : number := SFadd prec emax x y.

(** Strings are sequences of code units; [string] covers the code units
    below 256, which include every literal of the program. *)
Inductive value : Type :=
| JUndefined
| JNull
| JBool (b : bool)
| JNum (x : number)
| JStr (s : string)
| JArr (elems : list value)
| JObj (props : list (string * value)).

(** [ToBoolean]. *)
Definition falsy_number (x : number) : bool :=
  match x with
  | S754_zero _ | S754_nan => true
  | _ => false
  end.

Definition truthy (v : value) : bool :=
  match v with
  | JUndefined | JNull => false
  | JBool b => b
  | JNum x => negb (falsy_number x)
  | JStr s => negb (s =? EmptyString)
  | JArr _ | JObj _ => true
  end.

(** [a || b]. *)
Definition or_else (a b : value) : value := if truthy a then a else b.

(** Own properties of an object, as an association list in creation
    order; keys are unique and a lookup takes the first binding. *)
Fixpoint lookup {A : Type} (k : string) (props : list (string * A)) : option A :=
  match props with
  | [] => None
  | (k', v) :: rest => if k' =? k then Some v else lookup k rest
  end.

(** [obj[k] = v] on own properties: replace in place, or append. *)
Fixpoint assign {A : Type} (k : string) (v : A) (props : list (string * A))
  : list (string * A) :=
  match props with
  | [] => [(k, v)]
  | (k', v') :: rest =>
      if k' =? k then (k', v) :: rest else (k', v') :: assign k v rest
  end.

(** [{...a, ...b}]. *)
Definition spread {A : Type} (a b : list (string * A)) : list (string * A) :=
  fold_left (fun acc kv => assign (fst kv) (snd kv) acc) b a.

(** The string [ToString] gives, when the conversion succeeds (see
    [convertible]), given the runtime's rendering of numbers
    ([Number::toString]). An array is its elements joined by commas,
    [undefined] and [null] elements as empty strings; an object of the
    JSON data model is converted by [Object.prototype.toString]. *)
Section ToString.
Variable number_to_string : number -> string.

Fixpoint to_string (v : value) : string :=
  match v with
  | JUndefined => "undefined"
  | JNull => "null"
  | JBool true => "true"
  | JBool false => "false"
  | JNum x => number_to_string x
  | JStr s => s
  | JArr elems =>
      (fix join (l : list value) : string :=
         match l with
         | [] => EmptyString
         | x :: rest =>
             let sx := match x with
                       | JUndefined | JNull => EmptyString
                       | _ => to_string x
                       end in
             match rest with
             | [] => sx
             | _ :: _ => sx ++ "," ++ join rest
             end
         end) elems
  | JObj _ => "[object Object]"
  end.
End ToString.

(** Whether [ToString] succeeds. A JSON object with an own [toString]
    member hides [Object.prototype.toString] behind a value that cannot be
    called, and [valueOf] gives the object back: the conversion throws a
    [TypeError]. An array converts its elements, so it fails when one of
    them does. *)
Fixpoint convertible (v : value) : bool :=
  match v with
  | JObj props =>
      match lookup "toString" props with
      | Some _ => false
      | None => true
      end
  | JArr elems =>
      (fix all (l : list value) : bool :=
         match l with
         | [] => true
         | x :: rest => convertible x && all rest
         end) elems
  | _ => true
  end.

(** *** [parseFloat] on strings *)

Definition is_white_space (c : ascii) : bool :=
  let n := nat_of_ascii c in
  ((9 <=? n) && (n <=? 13) || (n =? 32) || (n =? 160))%nat.

Fixpoint trim_start (s : string) : string :=
  match s with
  | String c rest => if is_white_space c then trim_start rest else s
  | EmptyString => s
  end.

Definition digit_value (c : ascii) : option N :=
  let n := nat_of_ascii c in
  if ((48 <=? n) && (n <=? 57))%nat then Some (N.of_nat (n - 48)) else None.

(** Reads the longest run of decimal digits: the value accumulated onto
    [acc], the number of digits read, and the rest of the input. *)
Fixpoint scan_digits (s : string) (acc : N) (count : nat) : N * nat * string :=
  match s with
  | String c rest =>
      match digit_value c with
      | Some d => scan_digits rest (10 * acc + d)%N (S count)
      | None => (acc, count, s)
      end
  | EmptyString => (acc, count, s)
  end.

(** [ExponentPart], when one is there; 0 otherwise. *)
Definition exponent_part (s : string) : Z :=
  match s with
  | String c rest =>
      if (c =? "e")%char || (c =? "E")%char then
        let '(neg, digits) :=
          match rest with
          | String "+" r => (false, r)
          | String "-" r => (true, r)
          | _ => (false, rest)
          end in
        let '(n, count, _) := scan_digits digits 0 0 in
        match count with
        | O => 0%Z
        | S _ => cond_Zopp neg (Z.of_N n)
        end
      else 0%Z
  | EmptyString => 0%Z
  end.

(** The longest prefix that is a [StrUnsignedDecimalLiteral] other than
    [Infinity], as mantissa and decimal exponent. *)
Definition unsigned_decimal (s : string) : option (N * Z) :=
  let '(i, ni, r1) := scan_digits s 0 0 in
  match r1 with
  | String "." r2 =>
      let '(m, nf, r3) := scan_digits r2 i 0 in
      match (ni + nf)%nat with
      | O => None
      | S _ => Some (m, (exponent_part r3 - Z.of_nat nf)%Z)
      end
  | _ =>
      match ni with
      | O => None
      | S _ => Some (i, exponent_part r1)
      end
  end.

(** The binary64 value nearest to [m * 10^e] (ties to even). *)
Definition decimal_to_number (neg : bool) (m : N) (e : Z) : number :=
  match m with
  | N0 => S754_zero neg
  | Npos p =>
      match e with
      | Zneg k =>
          let '(mz, ez, lz) :=
            SFdiv_core_binary prec emax (Zpos p) 0 (Zpos (10 ^ k)) 0 in
          binary_round_aux prec emax neg mz ez lz
      | _ =>
          match (Zpos p * 10 ^ e)%Z with
          | Zpos q => binary_round prec emax neg q 0
          | _ => S754_nan
          end
      end
  end.

Definition parse_float_string (s : string) : number :=
  let t := trim_start s in
  let '(neg, u) :=
    match t with
    | String "+" r => (false, r)
    | String "-" r => (true, r)
    | _ => (false, t)
    end in
  if prefix "Infinity" u then S754_infinity neg
  else match unsigned_decimal u with
       | Some (m, e) => decimal_to_number neg m e
       | None => S754_nan
       end.

(** [s.includes(t)] on strings. *)
Fixpoint includes (t s : string) : bool :=
  prefix t s ||
  match s with
  | String _ rest => includes t rest
  | EmptyString => false
  end.

End JS.
Import JS.

(** ** Exceptions, HTTP and the runtime *)

(** An [Error] object; only its [message] is ever read. *)
Record js_error := Error { message : string }.

(** The [TypeError]s the engine raises in this program. *)
Inductive type_error : Type :=
| ReadOfNullish (base : value) (key : string)
| NotAFunction (callee : string)
| CannotConvert.

Module Http.

(** What [fetch] is called with: the URL and the [init] object. *)
Record request := {
  url : string;
  method : option string;
  headers : list (string * string);
  body : option string
}.

(** What [fetch] resolves to: the status, and what [text()] and [json()]
    resolve to or reject with. *)
Record response := {
  status : N;
  text : js_error + string;
  json : js_error + value
}.

(** [response.ok]: the status is in the range 200-299. *)
Definition ok (r : response) : bool :=
  ((200 <=? status r) && (status r <=? 299))%N.

Inductive outcome : Type :=
| Rejected (e : js_error)
| Responded (r : response).

(** The method [fetch] uses: GET unless [init.method] says otherwise. *)
Definition effective_method (r : request) : string :=
  match method r with
  | Some m => m
  | None => "GET"
  end.

End Http.

(** What the program takes from its environment: the network, the
    built-ins [JSON.stringify] (value and [space] argument; [None] is
    [undefined]) and [Number::toString], the wording of the engine's
    [TypeError]s, and [process.env.HUBSPOT_API_KEY]. *)
Record runtime := {
  fetch : Http.request -> Http.outcome;
  JSON_stringify : value -> option nat -> option string;
  number_to_string : number -> string;
  type_error_message : type_error -> string;
  HUBSPOT_API_KEY : value
}.

(** ** Computations: a trace of outbound requests and a completion *)

Inductive completion (A : Type) : Type :=
| Throw (e : js_error)
| Return (a : A).
Arguments Throw {A} e.
Arguments Return {A} a.

Definition M (A : Type) : Type := list Http.request * completion A.

Definition ret {A : Type} (a : A) : M A := ([], Return a).
Definition throw {A : Type} (e : js_error) : M A := ([], Throw e).

Definition bind {A B : Type} (m : M A) (f : A -> M B) : M B :=
  match m with
  | (t, Throw e) => (t, Throw e)
  | (t, Return a) => let '(t', r) := f a in ((t ++ t')%list, r)
  end.

(** [try { body } catch (error) { handler }]. *)
Definition try_catch {A : Type} (body : M A) (handler : js_error -> M A) : M A :=
  match body with
  | (t, Throw e) => let '(t', r) := handler e in ((t ++ t')%list, r)
  | (t, Return a) => (t, Return a)
  end.

Definition requests {A : Type} (m : M A) : list Http.request := fst m.
Definition result {A : Type} (m : M A) : completion A := snd m.

Declare Scope js_scope.
Delimit Scope js_scope with js.
Notation "x <- m ;; k" := (bind m (fun x => k))
  (at level 61, m at next level, right associativity) : js_scope.
Notation "' p <- m ;; k" := (bind m (fun x => let 'p := x in k))
  (at level 61, p pattern, m at next level, right associativity) : js_scope.
Open Scope js_scope.

(** ** The tool catalogue and the result type *)

(** Every input schema is of type ["object"]; [required] is empty where
    the schema has no such entry. *)
Module Schema.
Record property := {
  type : string;
  description : string;
  default : option value
}.
Record t := {
  properties : list (string * property);
  required : list string
}.
End Schema.

Module Tool.
Record definition := {
  name : string;
  description : string;
  inputSchema : Schema.t
}.
End Tool.

Record content_block := { type : string; text : option string }.

(** [isError] is [None] where the returned object has no such field. *)
Record tool_result := { content : list content_block; isError : option bool }.

(** The protocol reads an absent [isError] as [false]. *)
Definition is_error (r : tool_result) : bool :=
  match isError r with
  | Some b => b
  | None => false
  end.

(** [request.params]: the tool's name and its [arguments] ([JUndefined]
    when the caller sent none). *)
Record call_tool_request := { name : string; arguments : value }.

(** ** The pipeline summary *)

Module Stage.
(** [{ count, totalValue }], over the carrier of the sums. *)
Record entry (num : Type) := { count : nat; totalValue : num }.
Arguments count {num} e.
Arguments totalValue {num} e.
End Stage.

(** The carrier of the sums: binary64 in the program. The aggregation is
    written once over the carrier so that it can also be run with exact
    sums. *)
Record arith := {
  num : Type;
  zero : num;
  plus : num -> num -> num;
  inject : number -> num
}.

Definition binary64 : arith :=
  {| num := number; zero := of_Z 0; plus := JS.add; inject := fun x => x |}.

(** Exact sums: a finite binary64 value [m * 2^e] has [e >= -1074], so
    it is an integer multiple of 2^-1074 and is kept here as that
    integer; the infinities and NaN behave as in IEEE. *)
Inductive exact_num : Type :=
| EFinite (z : Z)
| EInfinity (neg : bool)
| ENaN.

Definition exact_of_number (x : number) : exact_num :=
  match x with
  | S754_zero _ => EFinite 0
  | S754_infinity s => EInfinity s
  | S754_nan => ENaN
  | S754_finite s m e => EFinite (cond_Zopp s (Zpos m * 2 ^ (e + 1074)))
  end.

Definition exact_plus (x y : exact_num) : exact_num :=
  match x, y with
  | ENaN, _ | _, ENaN => ENaN
  | EInfinity sx, EInfinity sy => if Bool.eqb sx sy then x else ENaN
  | EInfinity _, _ => x
  | _, EInfinity _ => y
  | EFinite a, EFinite b => EFinite (a + b)
  end.

Definition exact : arith :=
  {| num := exact_num; zero := EFinite 0; plus := exact_plus;
     inject := exact_of_number |}.

(** The local variables [summary] and [totalValue] of the handler. *)
Record summary_state (A : arith) := {
  summary : list (string * Stage.entry (num A));
  totalValue : num A
}.
Arguments summary {A} s.
Arguments totalValue {A} s.

(** The property names every object inherits from [Object.prototype]:
    [summary[stage]] is a function (or the prototype itself) for these. *)
Definition inherited_names : list string :=
  [ "constructor"; "__defineGetter__"; "__defineSetter__"; "hasOwnProperty";
    "__lookupGetter__"; "__lookupSetter__"; "isPrototypeOf";
    "propertyIsEnumerable"; "toString"; "valueOf"; "__proto__";
    "toLocaleString" ].

Definition inherited (k : string) : bool :=
  existsb (String.eqb k) inherited_names.

(** What [summary[stage]] evaluates to. *)
Inductive slot (A : Type) : Type :=
| Own (e : A)
| Inherited
| Absent.
Arguments Own {A} e.
Arguments Inherited {A}.
Arguments Absent {A}.

Definition read {A : Type} (props : list (string * A)) (k : string) : slot A :=
  match lookup k props with
  | Some e => Own e
  | None => if inherited k then Inherited else Absent
  end.

(** [!summary[stage]]: entries, functions and the prototype are truthy. *)
Definition missing {A : Type} (s : slot A) : bool :=
  match s with
  | Absent => true
  | _ => false
  end.

(** [summary[stage].field = f(summary[stage].field)]: on an own entry the
    entry changes; on an inherited one the write lands on the inherited
    object and [summary] stays as it is. *)
Definition update {A : Type} (props : list (string * A)) (k : string) (f : A -> A)
  : list (string * A) :=
  match read props k with
  | Own e => assign k (f e) props
  | _ => props
  end.

(** The updates of the [forEach] callback, once the deal's stage and
    amount are known. *)
Definition tally (A : arith) (st : summary_state A) (stage : string)
  (amount : number) : summary_state A :=
  let s0 := summary st in
  let s1 := if missing (read s0 stage)
            then assign stage {| Stage.count := 0; Stage.totalValue := zero A |} s0
            else s0 in
  let s2 := update s1 stage
              (fun e => {| Stage.count := S (Stage.count e);
                           Stage.totalValue := Stage.totalValue e |}) in
  let s3 := update s2 stage
              (fun e => {| Stage.count := Stage.count e;
                           Stage.totalValue :=
                             plus A (Stage.totalValue e) (inject A amount) |}) in
  {| summary := s3;
     totalValue := plus A (totalValue st) (inject A amount) |}.

(** [{ summary, totalDeals: data.results.length, totalValue }]. *)
Record report (A : arith) := {
  perStage : list (string * Stage.entry (num A));
  totalDeals : nat;
  grandTotal : num A
}.
Arguments perStage {A} r.
Arguments totalDeals {A} r.
Arguments grandTotal {A} r.

(** ** The program *)

Definition HUBSPOT_API_BASE : string := "https://api.hubapi.com".

Definition newline : string := String (ascii_of_nat 10) EmptyString.

(** [Number::toString] on a status code: its decimal digits. *)
Definition decimal (n : N) : string := NilZero.string_of_uint (N.to_uint n).

(** An undefined interpolated into a template literal. *)
Definition interpolate (s : option string) : string :=
  match s with
  | Some t => t
  | None => "undefined"
  end.

(** The [options] argument of [hubspotRequest] ([{}] by default). *)
Record request_options := {
  method : option string;
  body : option string;
  headers : list (string * string)
}.

Definition no_options : request_options :=
  {| method := None; body := None; headers := [] |}.

Definition text_block (t : option string) : content_block :=
  {| type := "text"; text := t |}.

Section Server.
Variable rt : runtime.

Definition TypeError (e : type_error) : js_error :=
  Error (type_error_message rt e).

(** [ToString(v)], as template literals, property keys and [parseFloat]
    apply it. *)
Definition ToString (v : value) : M string :=
  if convertible v then ret (to_string (number_to_string rt) v)
  else throw (TypeError CannotConvert).

Definition stringify (v : value) : option string := JSON_stringify rt v None.
Definition stringify_pretty (v : value) : option string :=
  JSON_stringify rt v (Some 2%nat).

Definition await {A : Type} (p : js_error + A) : M A :=
  match p with
  | inl e => throw e
  | inr a => ret a
  end.

Definition call_fetch (rq : Http.request) : M Http.response :=
  ([rq], match fetch rt rq with
         | Http.Rejected e => Throw e
         | Http.Responded r => Return r
         end).

(** [v.k], for the property names the program reads from JSON data; none
    of them is defined on a built-in prototype, so only an object's own
    properties can answer. *)
Definition get (v : value) (k : string) : M value :=
  match v with
  | JUndefined | JNull => throw (TypeError (ReadOfNullish v k))
  | JObj props =>
      match lookup k props with
      | Some x => ret x
      | None => ret JUndefined
      end
  | _ => ret JUndefined
  end.

(** [v[0]]. *)
Definition get_first (v : value) : M value :=
  match v with
  | JUndefined | JNull => throw (TypeError (ReadOfNullish v "0"))
  | JArr elems => ret (nth 0 elems JUndefined)
  | JStr (String c _) => ret (JStr (String c EmptyString))
  | JObj props =>
      match lookup "0" props with
      | Some x => ret x
      | None => ret JUndefined
      end
  | _ => ret JUndefined
  end.

(** [v.includes(t)]: strings and arrays have the method. *)
Definition call_includes (callee : string) (v : value) (t : string) : M bool :=
  match v with
  | JUndefined | JNull => throw (TypeError (ReadOfNullish v "includes"))
  | JStr s => ret (includes t s)
  | JArr elems =>
      ret (existsb (fun x => match x with
                             | JStr s => s =? t
                             | _ => false
                             end) elems)
  | _ => throw (TypeError (NotAFunction callee))
  end.

(** The body of [forEach], the callback's captured variables passed along. *)
Fixpoint for_each {S : Type} (f : S -> value -> M S) (l : list value) (s : S)
  : M S :=
  match l with
  | [] => ret s
  | x :: rest => s' <- f s x ;; for_each f rest s'
  end.

(** The call [fetch(url, { ...options, headers: { ... } })] of the generic
    request helper. [HUBSPOT_API_KEY] is a value of [process.env]: a
    string, or [undefined], whose conversion cannot fail. *)
Definition outbound (endpoint : string) (options : request_options)
  : Http.request :=
  let url := HUBSPOT_API_BASE ++ endpoint in
  {| Http.url := url;
     Http.method := method options;
     Http.body := body options;
     Http.headers :=
       spread [ ("Authorization",
                 "Bearer " ++ to_string (number_to_string rt) (HUBSPOT_API_KEY rt));
                ("Content-Type", "application/json") ]
              (headers options) |}.

(** The generic request helper. *)
Definition hubspotRequest (endpoint : string) (options : request_options)
  : M value :=
  response <- call_fetch (outbound endpoint options) ;;
  if negb (Http.ok response) then
    error <- await (Http.text response) ;;
    throw (Error ("HubSpot API error: " ++ decimal (Http.status response)
                    ++ " - " ++ error))
  else await (Http.json response).

Definition post (v : value) : request_options :=
  {| method := Some "POST"; body := stringify v; headers := [] |}.

Definition filter_on (property operator : string) (v : value) : value :=
  JObj [ ("filters",
          JArr [ JObj [ ("propertyName", JStr property);
                        ("operator", JStr operator);
                        ("value", v) ] ]) ].

Definition names (l : list string) : value := JArr (map JStr l).

(** [case "search_contacts"]. *)
Definition search_contacts (args : value) : M tool_result :=
  limit_arg <- get args "limit" ;;
  let limit := or_else limit_arg (JNum (of_Z 10)) in
  query <- get args "query" ;;
  data <- hubspotRequest "/crm/v3/objects/contacts/search"
    (post (JObj [ ("filterGroups",
                   JArr [ filter_on "email" "CONTAINS_TOKEN" query;
                          filter_on "firstname" "CONTAINS_TOKEN" query;
                          filter_on "lastname" "CONTAINS_TOKEN" query ]);
                  ("properties",
                   names ["firstname"; "lastname"; "email"; "phone"; "company"]);
                  ("limit", limit) ])) ;;
  results <- get data "results" ;;
  ret {| content := [text_block (stringify_pretty results)]; isError := None |}.

Definition contact_properties : list string :=
  ["firstname"; "lastname"; "email"; "phone"; "company"; "lifecyclestage"].

Definition email_search (contact_id : value) : value :=
  JObj [ ("filterGroups", JArr [ filter_on "email" "EQ" contact_id ]);
         ("properties", names contact_properties);
         ("limit", JNum (of_Z 1)) ].

(** [case "get_contact"]. *)
Definition get_contact (args : value) : M tool_result :=
  contact_id <- get args "contact_id" ;;
  isEmail <- call_includes "args.contact_id.includes" contact_id "@" ;;
  data <-
    (if isEmail : bool then
       searchData <- hubspotRequest "/crm/v3/objects/contacts/search"
         (post (email_search contact_id)) ;;
       results <- get searchData "results" ;;
       get_first results
     else
       id <- ToString contact_id ;;
       hubspotRequest
         ("/crm/v3/objects/contacts/" ++ id
            ++ "?properties=firstname,lastname,email,phone,company,lifecyclestage")
         no_options) ;;
  ret {| content := [text_block (stringify_pretty data)]; isError := None |}.

(** [case "create_contact"]. *)
Definition create_contact (args : value) : M tool_result :=
  data <- hubspotRequest "/crm/v3/objects/contacts"
    (post (JObj [ ("properties", args) ])) ;;
  id <- get data "id" ;;
  id <- ToString id ;;
  ret {| content :=
           [text_block (Some ("Contact created successfully! ID: " ++ id
                                ++ newline ++ interpolate (stringify_pretty data)))];
         isError := None |}.

(** [case "search_deals"]. *)
Definition search_deals (args : value) : M tool_result :=
  limit_arg <- get args "limit" ;;
  let limit := or_else limit_arg (JNum (of_Z 20)) in
  pipeline_stage <- get args "pipeline_stage" ;;
  let filterGroups :=
    if truthy pipeline_stage
    then [ filter_on "dealstage" "EQ" pipeline_stage ]
    else [] in
  data <- hubspotRequest "/crm/v3/objects/deals/search"
    (post (JObj [ ("filterGroups",
                   if (0 <? List.length filterGroups)%nat
                   then JArr filterGroups else JUndefined);
                  ("properties",
                   names ["dealname"; "amount"; "dealstage"; "pipeline"; "closedate"]);
                  ("limit", limit) ])) ;;
  results <- get data "results" ;;
  ret {| content := [text_block (stringify_pretty results)]; isError := None |}.

(** The [properties] object of [case "create_deal"]. *)
Definition deal_properties (args : value) : M value :=
  dealname <- get args "dealname" ;;
  amount <- get args "amount" ;;
  dealstage <- get args "dealstage" ;;
  pipeline <- get args "pipeline" ;;
  ret (JObj [ ("dealname", dealname);
              ("amount", amount);
              ("dealstage", dealstage);
              ("pipeline", or_else pipeline (JStr "default")) ]).

(** [case "create_deal"]. *)
Definition create_deal (args : value) : M tool_result :=
  properties <- deal_properties args ;;
  data <- hubspotRequest "/crm/v3/objects/deals"
    (post (JObj [ ("properties", properties) ])) ;;
  id <- get data "id" ;;
  id <- ToString id ;;
  ret {| content :=
           [text_block (Some ("Deal created successfully! ID: " ++ id
                                ++ newline ++ interpolate (stringify_pretty data)))];
         isError := None |}.

(** [parseFloat(v)]: [v] is converted to a string first. *)
Definition parseFloat (v : value) : M number :=
  s <- ToString v ;;
  ret (parse_float_string s).

(** [x || d] on numbers. *)
Definition number_or (x d : number) : number := if falsy_number x then d else x.

(** [deal.properties.dealstage || "Unknown"]. *)
Definition stage_value (deal : value) : M value :=
  properties <- get deal "properties" ;;
  dealstage <- get properties "dealstage" ;;
  ret (or_else dealstage (JStr "Unknown")).

(** The property key [summary[stage]] is read and written under. *)
Definition stage_of (deal : value) : M string :=
  stage <- stage_value deal ;;
  ToString stage.

(** [parseFloat(deal.properties.amount) || 0]. *)
Definition amount_of (deal : value) : M number :=
  properties <- get deal "properties" ;;
  amount <- get properties "amount" ;;
  parsed <- parseFloat amount ;;
  ret (number_or parsed (of_Z 0)).

(** The callback of [data.results.forEach]: the stage, the amount, then
    the reads and writes of [summary[stage]], which convert the stage to
    a property key. *)
Definition accumulate (A : arith) (st : summary_state A) (deal : value)
  : M (summary_state A) :=
  stage <- stage_value deal ;;
  amount <- amount_of deal ;;
  key <- ToString stage ;;
  ret (tally A st key amount).

(** The aggregation over [data.results]. *)
Definition aggregate (A : arith) (results : value) : M (report A) :=
  match results with
  | JArr deals =>
      st <- for_each (accumulate A) deals {| summary := []; totalValue := zero A |} ;;
      ret {| perStage := summary st;
             totalDeals := List.length deals;
             grandTotal := totalValue st |}
  | JUndefined | JNull => throw (TypeError (ReadOfNullish results "forEach"))
  | _ => throw (TypeError (NotAFunction "data.results.forEach"))
  end.

Definition number_of_nat (n : nat) : value := JNum (of_Z (Z.of_nat n)).

Definition entry_value (e : Stage.entry number) : value :=
  JObj [ ("count", number_of_nat (Stage.count e));
         ("totalValue", JNum (Stage.totalValue e)) ].

Definition report_value (r : report binary64) : value :=
  JObj [ ("summary", JObj (map (fun kv => (fst kv, entry_value (snd kv))) (perStage r)));
         ("totalDeals", number_of_nat (totalDeals r));
         ("totalValue", JNum (grandTotal r)) ].

(** [case "get_pipeline_summary"]. *)
Definition get_pipeline_summary (args : value) : M tool_result :=
  data <- hubspotRequest "/crm/v3/objects/deals/search"
    (post (JObj [ ("properties", names ["dealname"; "amount"; "dealstage"]);
                  ("limit", JNum (of_Z 100)) ])) ;;
  results <- get data "results" ;;
  r <- aggregate binary64 results ;;
  ret {| content :=
           [text_block (Some ("Pipeline Summary:" ++ newline
                                ++ interpolate (stringify_pretty (report_value r))))];
         isError := None |}.

(** The [switch] on the tool's name: the cases are compared in order. *)
Definition dispatch (name : string) (args : value) : M tool_result :=
  if name =? "search_contacts" then search_contacts args
  else if name =? "get_contact" then get_contact args
  else if name =? "create_contact" then create_contact args
  else if name =? "search_deals" then search_deals args
  else if name =? "create_deal" then create_deal args
  else if name =? "get_pipeline_summary" then get_pipeline_summary args
  else throw (Error ("Unknown tool: " ++ name)).

(** The [catch] clause. *)
Definition error_result (error : js_error) : tool_result :=
  {| content := [text_block (Some ("Error: " ++ message error))];
     isError := Some true |}.

(** The handler of [CallToolRequestSchema]. *)
Definition call_tool (request : call_tool_request) : M tool_result :=
  let name := name request in
  let args := arguments request in
  try_catch (dispatch name args) (fun error => ret (error_result error)).

End Server.

(** The handler of [ListToolsRequestSchema]. *)
Definition string_property (d : string) : Schema.property :=
  {| Schema.type := "string"; Schema.description := d; Schema.default := None |}.

Definition list_tools : list Tool.definition :=
  [ {| Tool.name := "search_contacts";
       Tool.description := "Search for contacts in HubSpot by name, email, or company";
       Tool.inputSchema :=
         {| Schema.properties :=
              [ ("query", string_property "Search query (name, email, company, etc.)");
                ("limit",
                 {| Schema.type := "number";
                    Schema.description := "Maximum number of results to return (default: 10)";
                    Schema.default := Some (JNum (of_Z 10)) |}) ];
            Schema.required := ["query"] |} |};
    {| Tool.name := "get_contact";
       Tool.description := "Get detailed information about a specific contact";
       Tool.inputSchema :=
         {| Schema.properties :=
              [ ("contact_id", string_property "HubSpot contact ID or email address") ];
            Schema.required := ["contact_id"] |} |};
    {| Tool.name := "create_contact";
       Tool.description := "Create a new contact in HubSpot";
       Tool.inputSchema :=
         {| Schema.properties :=
              [ ("email", string_property "Contact email address");
                ("firstname", string_property "First name");
                ("lastname", string_property "Last name");
                ("phone", string_property "Phone number");
                ("company", string_property "Company name") ];
            Schema.required := ["email"] |} |};
    {| Tool.name := "search_deals";
       Tool.description := "Search for deals in HubSpot pipeline";
       Tool.inputSchema :=
         {| Schema.properties :=
              [ ("pipeline_stage", string_property "Filter by pipeline stage");
                ("limit",
                 {| Schema.type := "number";
                    Schema.description := "Maximum number of results (default: 20)";
                    Schema.default := Some (JNum (of_Z 20)) |}) ];
            Schema.required := [] |} |};
    {| Tool.name := "create_deal";
       Tool.description := "Create a new deal in HubSpot";
       Tool.inputSchema :=
         {| Schema.properties :=
              [ ("dealname", string_property "Name of the deal");
                ("amount",
                 {| Schema.type := "number";
                    Schema.description := "Deal amount in dollars";
                    Schema.default := None |});
                ("dealstage", string_property "Pipeline stage");
                ("pipeline",
                 {| Schema.type := "string";
                    Schema.description := "Pipeline name";
                    Schema.default := Some (JStr "default") |}) ];
            Schema.required := ["dealname"; "amount"; "dealstage"] |} |};
    {| Tool.name := "get_pipeline_summary";
       Tool.description := "Get a summary of all deals by pipeline stage";
       Tool.inputSchema :=
         {| Schema.properties := []; Schema.required := [] |} |} ].

Definition advertised_names : list string := map Tool.name list_tools.

(** ** A runtime to run the model on

    Its [JSON.stringify] writes compact JSON whatever the [space] argument
    and prints integral numbers only; the [TypeError] messages are V8's. *)

Module Sample.

Definition print_number (x : number) : string :=
  match x with
  | S754_zero _ => "0"
  | S754_nan => "NaN"
  | S754_infinity s => if s then "-Infinity" else "Infinity"
  | S754_finite s m e =>
      (if s then "-" else EmptyString) ++
      match e with
      | Zneg k =>
          if (Zpos m mod 2 ^ Zpos k =? 0)%Z
          then decimal (Z.to_N (Zpos m / 2 ^ Zpos k)) else "?"
      | _ => decimal (Z.to_N (Zpos m * 2 ^ e))
      end
  end.

Definition quote (s : string) : string :=
  String (ascii_of_nat 34) s ++ String (ascii_of_nat 34) EmptyString.

Fixpoint json (v : value) : string :=
  match v with
  | JUndefined | JNull => "null"
  | JBool true => "true"
  | JBool false => "false"
  | JNum x => print_number x
  | JStr s => quote s
  | JArr elems =>
      "[" ++ (fix items (l : list value) : string :=
                match l with
                | [] => EmptyString
                | x :: rest =>
                    json x ++
                    match rest with
                    | [] => EmptyString
                    | _ :: _ => "," ++ items rest
                    end
                end) elems ++ "]"
  | JObj props =>
      "{" ++ (fix members (l : list (string * value)) (first : bool) : string :=
                match l with
                | [] => EmptyString
                | (_, JUndefined) :: rest => members rest first
                | (k, x) :: rest =>
                    (if first then EmptyString else ",") ++ quote k ++ ":"
                      ++ json x ++ members rest false
                end) props true ++ "}"
  end.

Definition stringify (v : value) (space : option nat) : option string :=
  match v with
  | JUndefined => None
  | _ => Some (json v)
  end.

Definition v8_message (e : type_error) : string :=
  match e with
  | ReadOfNullish base key =>
      "Cannot read properties of "
        ++ match base with JNull => "null" | _ => "undefined" end
        ++ " (reading '" ++ key ++ "')"
  | NotAFunction callee => callee ++ " is not a function"
  | CannotConvert => "Cannot convert object to primitive value"
  end.

(** The runtime whose network answers as [f] says. *)
Definition runtime_with (f : Http.request -> Http.outcome) : runtime :=
  {| fetch := f;
     JSON_stringify := stringify;
     number_to_string := print_number;
     type_error_message := v8_message;
     HUBSPOT_API_KEY := JStr "pat-na1-sample" |}.

(** Every call answered with the given status and body. *)
Definition answering (status : N) (body : string) (parsed : value) : runtime :=
  runtime_with (fun _ =>
    Http.Responded {| Http.status := status;
                      Http.text := inr body;
                      Http.json := inr parsed |}).

Definition deal (dealstage amount : string) : value :=
  JObj [ ("properties", JObj [ ("dealstage", JStr dealstage);
                               ("amount", JStr amount) ]) ].

Definition search_result (records : list value) : value :=
  JObj [ ("total", JNum (of_Z (Z.of_nat (List.length records))));
         ("results", JArr records) ].

Definition call (name : string) (args : list (string * value)) : call_tool_request :=
  {| name := name; arguments := JObj args |}.

End Sample.

(** ** Vocabulary of the statements *)

(** A computation that hands nothing to [fetch]. *)
Definition silent {A : Type} (m : M A) : Prop := requests m = [].

(** Every value a computation can return satisfies [P]. *)
Definition returns_only {A : Type} (P : A -> Prop) (m : M A) : Prop :=
  forall a, result m = Return a -> P a.

(** At most one outbound call, and when that call fails the computation
    fails with the same error. *)
Definition one_call (rt : runtime) {A : Type} (m : M A) : Prop :=
  silent m \/
  exists endpoint options,
    requests m = [outbound rt endpoint options] /\
    forall e, result (hubspotRequest rt endpoint options) = Throw e ->
              result m = Throw e.

(** [s] occurs in [t]. *)
Definition occurs_in (s t : string) : Prop :=
  exists before after, t = before ++ s ++ after.

(** The value of an argument, [undefined] when it is not supplied. *)
Definition field (k : string) (props : list (string * value)) : value :=
  match lookup k props with
  | Some x => x
  | None => JUndefined
  end.

(** The headers every outbound call carries. *)
Definition standard_headers (rt : runtime) : list (string * string) :=
  [ ("Authorization",
     "Bearer " ++ to_string (number_to_string rt) (HUBSPOT_API_KEY rt));
    ("Content-Type", "application/json") ].

(** Shapes of the CRM's answers. Property values and ids are strings (or
    [null]) in the CRM; all that is asked here is that they convert to
    strings. A record is an object with a [properties] object of such
    values; a search answers an object whose [results] is an array of
    records; a fetch or a creation answers an object whose [id], when it
    has one, is such a value. *)
Definition is_object (v : value) : bool :=
  match v with
  | JObj props => convertible (field "id" props)
  | _ => false
  end.

Definition is_record (v : value) : bool :=
  match v with
  | JObj props =>
      match lookup "properties" props with
      | Some (JObj ps) => forallb (fun kv => convertible (snd kv)) ps
      | _ => false
      end
  | _ => false
  end.

Definition is_search_response (v : value) : bool :=
  match v with
  | JObj props =>
      match lookup "results" props with
      | Some (JArr records) => forallb is_record records
      | _ => false
      end
  | _ => false
  end.

Definition is_search (rq : Http.request) : bool :=
  (Http.url rq =? (HUBSPOT_API_BASE ++ "/crm/v3/objects/contacts/search"))
  || (Http.url rq =? (HUBSPOT_API_BASE ++ "/crm/v3/objects/deals/search")).

(** The underlying API call succeeds: a success status and a JSON body of
    the shape the endpoint answers with. *)
Definition api_success (rt : runtime) (rq : Http.request) : Prop :=
  exists r data,
    fetch rt rq = Http.Responded r /\
    Http.ok r = true /\
    Http.json r = inr data /\
    (if is_search rq then is_search_response data else is_object data) = true.

(** An argument object that supplies every required field of a tool's
    schema with a value of the declared type. *)
Definition has_type (t : string) (v : value) : bool :=
  match v with
  | JStr _ => t =? "string"
  | JNum _ => t =? "number"
  | _ => false
  end.

Definition valid_arguments (d : Tool.definition) (args : value) : bool :=
  match args with
  | JObj props =>
      forallb (fun k =>
                 match lookup k props,
                       lookup k (Schema.properties (Tool.inputSchema d)) with
                 | Some v, Some p => has_type (Schema.type p) v
                 | _, _ => false
                 end)
              (Schema.required (Tool.inputSchema d))
  | _ => false
  end.

(** The sums over the stages of a summary. *)
Definition sum_counts {X : Type} (s : list (string * Stage.entry X)) : nat :=
  fold_right (fun kv n => (Stage.count (snd kv) + n)%nat) 0%nat s.

Definition sum_totals (A : arith) (s : list (string * Stage.entry (num A)))
  : num A :=
  fold_right (fun kv t => plus A (Stage.totalValue (snd kv)) t) (zero A) s.

(** What the callback resolves a deal to, or the error it raises. The
    callback parses the amount before it converts the stage to a key;
    when both conversions fail they fail with the same error, so the
    order does not show ([accumulate_resolve]). *)
Definition resolve (rt : runtime) (deal : value) : completion (string * number) :=
  result (stage <- stage_of rt deal ;;
          amount <- amount_of rt deal ;;
          ret (stage, amount)).

(** The loop over resolved deals: it stops at the first error. *)
Fixpoint run (A : arith) (rs : list (completion (string * number)))
  (st : summary_state A) : completion (summary_state A) :=
  match rs with
  | [] => Return st
  | Throw e :: _ => Throw e
  | Return (stage, amount) :: rest => run A rest (tally A st stage amount)
  end.

(** Two entries with the same count and related totals, or none at all. *)
Definition entries_agree {X Y : Type} (R : X -> Y -> Prop)
  (o : option (Stage.entry X)) (o' : option (Stage.entry Y)) : Prop :=
  match o, o' with
  | Some e, Some e' =>
      Stage.count e = Stage.count e' /\
      R (Stage.totalValue e) (Stage.totalValue e')
  | None, None => True
  | _, _ => False
  end.

Definition states_agree {A B : arith} (R : num A -> num B -> Prop)
  (st : summary_state A) (st' : summary_state B) : Prop :=
  R (totalValue st) (totalValue st') /\
  forall k, entries_agree R (lookup k (summary st)) (lookup k (summary st')).

(** Two runs of the aggregation fail together or report the same deal
    count, the same stages with the same counts, and related totals. *)
Definition reports_agree {A B : arith} (R : num A -> num B -> Prop)
  (c : completion (report A)) (c' : completion (report B)) : Prop :=
  match c, c' with
  | Return r, Return r' =>
      totalDeals r = totalDeals r' /\
      R (grandTotal r) (grandTotal r') /\
      forall k, entries_agree R (lookup k (perStage r)) (lookup k (perStage r'))
  | Throw _, Throw _ => True
  | _, _ => False
  end.

Definition outcomes_agree (A : arith) (R : num A -> num A -> Prop)
  (c c' : completion (summary_state A)) : Prop :=
  match c, c' with
  | Return s, Return s' => states_agree R s s'
  | Throw _, Throw _ => True
  | _, _ => False
  end.

(** A resolved deal whose stage is not a name [summary] inherits. *)
Definition own_stage (c : completion (string * number)) : Prop :=
  match c with
  | Return (stage, _) => inherited stage = false
  | Throw _ => True
  end.

(** No constraint on the totals: only stages and counts are compared. *)
Definition any_totals {X Y : Type} (x : X) (y : Y) : Prop := True.

(** What the sums must satisfy for the order of the deals not to matter. *)
Record order_free (A : arith) (R : num A -> num A -> Prop) : Prop := {
  related_refl : forall a, R a a;
  related_trans : forall a b c, R a b -> R b c -> R a c;
  plus_related : forall a b x, R a b -> R (plus A a x) (plus A b x);
  plus_swap : forall a x y, R (plus A (plus A a x) y) (plus A (plus A a y) x)
}.

(** What a successful tool call looks like: one outbound call and a
    result without [isError]. *)
Definition succeeds (m : M tool_result) : Prop :=
  exists r rq,
    result m = Return r /\ isError r = None /\ requests m = [rq].

(** A result with exactly one content block, of type ["text"]. *)
Definition single_text (r : tool_result) : Prop :=
  exists t, content r = [ {| type := "text"; text := t |} ].

(** ** Vocabulary of the further properties *)

(** The two ways the tools call the request helper: without options, or
    with a POST of a serialized value. *)
Definition plain (rt : runtime) (options : request_options) : Prop :=
  options = no_options \/ exists v, options = post rt v.

(** At most one outbound call, made in one of those two ways. *)
Definition plain_call (rt : runtime) {A : Type} (m : M A) : Prop :=
  silent m \/
  exists endpoint options,
    requests m = [outbound rt endpoint options] /\ plain rt options.

(** [undefined] or [null]. *)
Definition nullish (v : value) : bool :=
  match v with
  | JUndefined | JNull => true
  | _ => false
  end.

(** The stages and amounts of the deals the callback resolves. *)
Definition pairs (rt : runtime) (deals : list value) : list (string * number) :=
  flat_map (fun deal => match resolve rt deal with
                        | Return p => [p]
                        | Throw _ => []
                        end) deals.

(** The amounts of one stage, in the order of the deals. *)
Definition amounts_of_stage (k : string) (ps : list (string * number))
  : list number :=
  map snd (filter (fun p => fst p =? k) ps).

(** The sum the program computes: from 0, one addition per amount, left
    to right. *)
Definition left_sum (A : arith) (l : list number) : num A :=
  fold_left (fun t a => plus A t (inject A a)) l (zero A).

(** What one stage's entry becomes as deals are tallied. *)
Definition tally_entry (A : arith) (k : string)
  (o : option (Stage.entry (num A))) (p : string * number)
  : option (Stage.entry (num A)) :=
  if fst p =? k then
    match o with
    | Some e =>
        Some {| Stage.count := S (Stage.count e);
                Stage.totalValue := plus A (Stage.totalValue e) (inject A (snd p)) |}
    | None =>
        if inherited k then None
        else Some {| Stage.count := 1;
                     Stage.totalValue := plus A (zero A) (inject A (snd p)) |}
    end
  else o.

(** The text of a result's only block. *)
Definition text_of (r : tool_result) : option string :=
  match content r with
  | [b] => text b
  | _ => None
  end.

(** What holds of [summary] all along the loop: its keys are distinct,
    none is a name every object inherits, and every count is at least 1. *)
Definition well_kept {A : arith} (st : summary_state A) : Prop :=
  NoDup (map fst (summary st)) /\
  forall k e, lookup k (summary st) = Some e ->
              inherited k = false /\ (1 <= Stage.count e)%nat.

(** A number that is not an infinity. *)
Definition not_infinite (x : number) : bool :=
  match x with
  | S754_infinity _ => false
  | _ => true
  end.

(** * Properties *)

(** ** The number parser on known values *)

Example parseFloat_integers :
  parse_float_string "100" = of_Z 100 /\
  parse_float_string "50" = of_Z 50 /\
  parse_float_string "12abc" = of_Z 12 /\
  parse_float_string "9007199254740993" = of_Z 9007199254740992.
Proof. repeat split; reflexivity. Qed.

Example parseFloat_fractions :
  parse_float_string "0.1" = S754_finite false 7205759403792794 (-56) /\
  parse_float_string " +.1e0x" = S754_finite false 7205759403792794 (-56) /\
  parse_float_string "1e23" = S754_finite false 5960464477539062 24 /\
  parse_float_string "5e-324" = S754_finite false 1 (-1074) /\
  parse_float_string "2e-324" = S754_zero false /\
  parse_float_string "-0.0e5" = S754_zero true.
Proof. repeat split; reflexivity. Qed.

Example parseFloat_limits :
  parse_float_string "1.7976931348623158e308"
    = S754_finite false 9007199254740991 971 /\
  parse_float_string "1.7976931348623159e308" = S754_infinity false /\
  parse_float_string "-Infinity" = S754_infinity true.
Proof. repeat split; vm_compute; reflexivity. Qed.

Example parseFloat_not_a_number :
  parse_float_string "bad" = S754_nan /\
  parse_float_string EmptyString = S754_nan /\
  parse_float_string "undefined" = S754_nan /\
  parse_float_string "infinity" = S754_nan /\
  parse_float_string "." = S754_nan /\
  parse_float_string "+-5" = S754_nan.
Proof. repeat split; reflexivity. Qed.

(** The catalogue advertises the six names of the [switch]. *)
Example advertised_names_are :
  advertised_names =
  [ "search_contacts"; "get_contact"; "create_contact"; "search_deals";
    "create_deal"; "get_pipeline_summary" ].
Proof. reflexivity. Qed.

(** ** Strings *)

Lemma append_nil_r (s : string) : s ++ EmptyString = s.
Proof. induction s; simpl; congruence. Qed.

Lemma append_assoc (s t u : string) : (s ++ t) ++ u = s ++ t ++ u.
Proof. induction s; simpl; congruence. Qed.

(** ** The monad *)

Lemma result_bind {A B : Type} (m : M A) (f : A -> M B) :
  result (bind m f) =
  match result m with
  | Throw e => Throw e
  | Return a => result (f a)
  end.
Proof.
  destruct m as [t [e | a]]; simpl; [reflexivity |].
  destruct (f a); reflexivity.
Qed.

Lemma requests_bind {A B : Type} (m : M A) (f : A -> M B) :
  requests (bind m f) =
  (requests m ++ match result m with
                 | Throw _ => []
                 | Return a => requests (f a)
                 end)%list.
Proof.
  destruct m as [t [e | a]]; simpl.
  - now rewrite app_nil_r.
  - destruct (f a); reflexivity.
Qed.

Lemma bind_ret {A B : Type} (a : A) (f : A -> M B) : bind (ret a) f = f a.
Proof. unfold bind, ret. destruct (f a); reflexivity. Qed.

Lemma bind_throw {A B : Type} (e : js_error) (f : A -> M B) :
  bind (throw e) f = throw e.
Proof. reflexivity. Qed.

Lemma M_ext {A : Type} (m m' : M A) :
  requests m = requests m' -> result m = result m' -> m = m'.
Proof. destruct m, m'; simpl; intros; subst; reflexivity. Qed.

Lemma silent_ret {A : Type} (a : A) : silent (ret a).
Proof. reflexivity. Qed.

Lemma silent_throw {A : Type} (e : js_error) : silent (@throw A e).
Proof. reflexivity. Qed.

Lemma silent_bind {A B : Type} (m : M A) (f : A -> M B) :
  silent m -> (forall a, silent (f a)) -> silent (bind m f).
Proof.
  unfold silent. intros Hm Hf. rewrite requests_bind, Hm. simpl.
  destruct (result m); [reflexivity | apply Hf].
Qed.

Lemma silent_if {A : Type} (b : bool) (m m' : M A) :
  silent m -> silent m' -> silent (if b then m else m').
Proof. destruct b; auto. Qed.

Create HintDb silent.
#[export] Hint Resolve silent_ret silent_throw silent_bind silent_if : silent.

Lemma returns_only_ret {A : Type} (P : A -> Prop) (a : A) :
  P a -> returns_only P (ret a).
Proof. intros H b Hb. inversion Hb. subst. exact H. Qed.

Lemma returns_only_bind {A B : Type} (P : B -> Prop) (m : M A) (f : A -> M B) :
  (forall a, returns_only P (f a)) -> returns_only P (bind m f).
Proof.
  intros H b. rewrite result_bind.
  destruct (result m); [discriminate | apply H].
Qed.

Lemma returns_only_if {A : Type} (P : A -> Prop) (b : bool) (m m' : M A) :
  returns_only P m -> returns_only P m' -> returns_only P (if b then m else m').
Proof. destruct b; auto. Qed.

(** ** Reads of JSON data are silent *)

Section Silence.
Variable rt : runtime.

Lemma silent_await {A : Type} (p : js_error + A) : silent (await p).
Proof. destruct p; reflexivity. Qed.

Lemma silent_get (v : value) (k : string) : silent (get rt v k).
Proof.
  destruct v; try reflexivity. simpl. destruct (lookup k props); reflexivity.
Qed.

Lemma silent_get_first (v : value) : silent (get_first rt v).
Proof.
  destruct v; try reflexivity; simpl.
  - destruct s; reflexivity.
  - destruct (lookup "0" props); reflexivity.
Qed.

Lemma silent_call_includes (callee : string) (v : value) (t : string) :
  silent (call_includes rt callee v t).
Proof. destruct v; reflexivity. Qed.

Lemma silent_for_each {S : Type} (f : S -> value -> M S) (l : list value) :
  (forall s x, silent (f s x)) -> forall s, silent (for_each f l s).
Proof.
  intros Hf. induction l as [| x l IH]; intros s; simpl.
  - reflexivity.
  - apply silent_bind; auto.
Qed.

Lemma silent_ToString (v : value) : silent (ToString rt v).
Proof. unfold ToString. destruct (convertible v); reflexivity. Qed.

Hint Resolve silent_await silent_get silent_get_first silent_call_includes
  silent_ToString : silent.

Lemma silent_parseFloat (v : value) : silent (parseFloat rt v).
Proof. unfold parseFloat. auto 10 with silent. Qed.

Lemma silent_stage_value (deal : value) : silent (stage_value rt deal).
Proof. unfold stage_value. auto 10 with silent. Qed.

Hint Resolve silent_parseFloat silent_stage_value : silent.

Lemma silent_stage_of (deal : value) : silent (stage_of rt deal).
Proof. unfold stage_of. auto 10 with silent. Qed.

Lemma silent_amount_of (deal : value) : silent (amount_of rt deal).
Proof. unfold amount_of. auto 10 with silent. Qed.

Hint Resolve silent_stage_of silent_amount_of : silent.

Lemma silent_accumulate (A : arith) (st : summary_state A) (deal : value) :
  silent (accumulate rt A st deal).
Proof. unfold accumulate. auto 10 with silent. Qed.

Lemma silent_aggregate (A : arith) (results : value) :
  silent (aggregate rt A results).
Proof.
  destruct results; try reflexivity. simpl.
  apply silent_bind; [| intros; reflexivity].
  apply silent_for_each. intros. apply silent_accumulate.
Qed.

Lemma silent_deal_properties (args : value) : silent (deal_properties rt args).
Proof. unfold deal_properties. auto 10 with silent. Qed.

End Silence.

#[export] Hint Resolve silent_await silent_get silent_get_first
  silent_call_includes silent_ToString silent_parseFloat silent_stage_value
  silent_stage_of silent_amount_of silent_accumulate
  silent_aggregate silent_deal_properties : silent.

(** ** The request helper *)

Section Helper.
Variable rt : runtime.

Lemma requests_hubspotRequest (endpoint : string) (options : request_options) :
  requests (hubspotRequest rt endpoint options) = [outbound rt endpoint options].
Proof.
  unfold hubspotRequest. rewrite requests_bind. simpl.
  destruct (fetch rt (outbound rt endpoint options)) as [e | r]; [reflexivity |].
  destruct (negb (Http.ok r)).
  - rewrite requests_bind, silent_await.
    destruct (result (await (Http.text r))); reflexivity.
  - now rewrite silent_await.
Qed.

(** A non-success status with a readable body makes the helper fail with
    the status and the body in the message. *)
Lemma hubspotRequest_rejected endpoint options (r : Http.response) (b : string) :
  fetch rt (outbound rt endpoint options) = Http.Responded r ->
  Http.ok r = false ->
  Http.text r = inr b ->
  result (hubspotRequest rt endpoint options) =
  Throw (Error ("HubSpot API error: " ++ decimal (Http.status r) ++ " - " ++ b)).
Proof.
  intros Hf Hok Ht. unfold hubspotRequest, call_fetch, bind.
  rewrite Hf, Hok, Ht. reflexivity.
Qed.

(** A success status with a parsable body makes the helper return it. *)
Lemma hubspotRequest_accepted endpoint options (r : Http.response) (data : value) :
  fetch rt (outbound rt endpoint options) = Http.Responded r ->
  Http.ok r = true ->
  Http.json r = inr data ->
  hubspotRequest rt endpoint options =
  ([outbound rt endpoint options], Return data).
Proof.
  intros Hf Hok Hj. unfold hubspotRequest, call_fetch, bind.
  rewrite Hf, Hok, Hj. reflexivity.
Qed.

Lemma one_call_silent {A : Type} (m : M A) : silent m -> one_call rt m.
Proof. now left. Qed.

Lemma one_call_bind {A B : Type} (m : M A) (f : A -> M B) :
  silent m -> (forall a, one_call rt (f a)) -> one_call rt (bind m f).
Proof.
  intros Hm Hf. destruct m as [t [e | a]]; unfold silent in Hm; simpl in Hm; subst t.
  - left. reflexivity.
  - change (bind ([], Return a) f) with (bind (ret a) f). rewrite bind_ret. apply Hf.
Qed.

Lemma one_call_request {A : Type} endpoint options (k : value -> M A) :
  (forall data, silent (k data)) ->
  one_call rt (bind (hubspotRequest rt endpoint options) k).
Proof.
  intros Hk. right. exists endpoint, options. split.
  - rewrite requests_bind, requests_hubspotRequest.
    destruct (result (hubspotRequest rt endpoint options)); [reflexivity |].
    now rewrite Hk.
  - intros e He. now rewrite result_bind, He.
Qed.

Lemma one_call_if {A : Type} (b : bool) (m m' : M A) :
  one_call rt m -> one_call rt m' -> one_call rt (if b then m else m').
Proof. destruct b; auto. Qed.

(** The same for a call whose result is post-processed before the rest
    of the tool runs. *)
Lemma one_call_assoc {A B C : Type} (m : M A) (f : A -> M B) (g : B -> M C) :
  one_call rt (bind m (fun a => bind (f a) g)) ->
  one_call rt (bind (bind m f) g).
Proof.
  assert (E : bind (bind m f) g = bind m (fun a => bind (f a) g)).
  { destruct m as [t [e | a]]; simpl; [reflexivity |].
    destruct (f a) as [t1 [e1 | b]]; simpl; [reflexivity |].
    destruct (g b) as [t2 c]. now rewrite app_assoc. }
  now rewrite E.
Qed.

Ltac one_call_steps :=
  repeat first
    [ apply one_call_request; intros; solve [ auto 10 with silent ]
    | apply one_call_bind; [ solve [ auto 10 with silent ] | intros ] ].

Lemma one_call_search_contacts args : one_call rt (search_contacts rt args).
Proof. unfold search_contacts. one_call_steps. Qed.

Lemma one_call_get_contact args : one_call rt (get_contact rt args).
Proof.
  unfold get_contact. one_call_steps.
  match goal with |- context [if ?b then _ else _] => destruct b end.
  - apply one_call_assoc. one_call_steps.
  - apply one_call_assoc. one_call_steps.
Qed.

Lemma one_call_create_contact args : one_call rt (create_contact rt args).
Proof. unfold create_contact. one_call_steps. Qed.

Lemma one_call_search_deals args : one_call rt (search_deals rt args).
Proof. unfold search_deals. one_call_steps. Qed.

Lemma one_call_create_deal args : one_call rt (create_deal rt args).
Proof. unfold create_deal. one_call_steps. Qed.

Lemma one_call_get_pipeline_summary args :
  one_call rt (get_pipeline_summary rt args).
Proof. unfold get_pipeline_summary. one_call_steps. Qed.

Lemma one_call_dispatch name args : one_call rt (dispatch rt name args).
Proof.
  unfold dispatch.
  repeat (apply one_call_if;
          [ solve [ apply one_call_search_contacts | apply one_call_get_contact
                  | apply one_call_create_contact | apply one_call_search_deals
                  | apply one_call_create_deal
                  | apply one_call_get_pipeline_summary ] | ]).
  left. reflexivity.
Qed.

(** The [catch] clause turns what the [try] block did into a result. *)
Lemma call_tool_unfold (request : call_tool_request) :
  requests (call_tool rt request) =
    requests (dispatch rt (name request) (arguments request)) /\
  result (call_tool rt request) =
    match result (dispatch rt (name request) (arguments request)) with
    | Throw e => Return (error_result e)
    | Return r => Return r
    end.
Proof.
  unfold call_tool, try_catch.
  destruct (dispatch rt (name request) (arguments request)) as [t [e | r]]; simpl.
  - now rewrite app_nil_r.
  - now split.
Qed.

Lemma dispatch_unknown name args :
  ~ In name advertised_names ->
  dispatch rt name args = throw (Error ("Unknown tool: " ++ name)).
Proof.
  intros H. unfold dispatch.
  repeat match goal with
         | |- context [(name =? ?s)%string] =>
             destruct (String.eqb_spec name s) as [-> | _];
             [ exfalso; apply H; simpl; tauto | ]
         end.
  reflexivity.
Qed.

End Helper.

(** ** The dispatcher's results *)

(** C1: the handler never raises. Whatever the request, it returns a
    result; a failure of the [try] block with error [e] is returned as
    [isError = true] with the single text block ["Error: " ++ message e];
    a name outside the catalogue is such a failure, with the message
    ["Unknown tool: <name>"], and reaches no outbound call. *)
Theorem call_tool_never_raises (rt : runtime) (request : call_tool_request) :
  (exists r, result (call_tool rt request) = Return r) /\
  (forall e,
      result (dispatch rt (name request) (arguments request)) = Throw e ->
      result (call_tool rt request) =
      Return {| content := [ {| type := "text";
                                text := Some ("Error: " ++ message e) |} ];
                isError := Some true |}) /\
  (~ In (name request) advertised_names ->
   call_tool rt request =
   ([], Return {| content :=
                    [ {| type := "text";
                         text := Some ("Error: Unknown tool: " ++ name request) |} ];
                  isError := Some true |})).
Proof.
  destruct (call_tool_unfold rt request) as [Hq Hr].
  split; [| split].
  - rewrite Hr. destruct (result (dispatch rt _ _)); eauto.
  - intros e He. rewrite Hr, He. reflexivity.
  - intros Hn. unfold call_tool.
    rewrite (dispatch_unknown rt _ _ Hn). reflexivity.
Qed.

(** The unknown tool of the specification's example. *)
Lemma call_tool_never_raises_witness :
  call_tool (Sample.answering 200 "{}" (JObj [])) (Sample.call "unknown_tool" []) =
  ([], Return {| content := [ {| type := "text";
                                 text := Some "Error: Unknown tool: unknown_tool" |} ];
                 isError := Some true |}).
Proof.
  apply (call_tool_never_raises
           (Sample.answering 200 "{}" (JObj [])) (Sample.call "unknown_tool" [])).
  vm_compute. intros H. decompose [or] H; discriminate || assumption.
Defined.

Section Blocks.
Variable rt : runtime.

Ltac single_text_steps :=
  repeat (apply returns_only_bind; intros);
  apply returns_only_ret; eexists; reflexivity.

Lemma single_text_dispatch name args :
  returns_only single_text (dispatch rt name args).
Proof.
  unfold dispatch.
  repeat (apply returns_only_if;
          [ solve [ unfold search_contacts, get_contact, create_contact,
                      search_deals, create_deal, get_pipeline_summary;
                    single_text_steps ] | ]).
  intros r Hr. discriminate.
Qed.

End Blocks.

(** C9: every result of the handler, on the success path and on the error
    path alike, has exactly one content block, of type ["text"]. *)
Theorem call_tool_single_text_block (rt : runtime) (request : call_tool_request) :
  exists r t,
    result (call_tool rt request) = Return r /\
    content r = [ {| type := "text"; text := t |} ].
Proof.
  destruct (call_tool_unfold rt request) as [_ Hr].
  destruct (result (dispatch rt (name request) (arguments request)))
    as [e | r] eqn:E.
  - exists (error_result e). eexists. split; [exact Hr | reflexivity].
  - destruct (single_text_dispatch rt _ _ r E) as [t Ht].
    exists r, t. split; assumption.
Qed.

(** C4: when an outbound call of a tool invocation is answered with a
    non-success status and body text [b], the request helper fails with
    the error ["HubSpot API error: <status> - <b>"], the handler returns
    [isError = true] with that message after ["Error: "], so that the
    status code and the body text both occur in it, and that call is the
    only one the invocation makes. *)
Theorem non_success_status_is_reported
  (rt : runtime) (request : call_tool_request)
  (rq : Http.request) (r : Http.response) (b : string) :
  In rq (requests (call_tool rt request)) ->
  fetch rt rq = Http.Responded r ->
  Http.ok r = false ->
  Http.text r = inr b ->
  let failure := "HubSpot API error: " ++ decimal (Http.status r) ++ " - " ++ b in
  (exists endpoint options,
      rq = outbound rt endpoint options /\
      result (hubspotRequest rt endpoint options) = Throw (Error failure)) /\
  result (call_tool rt request) =
    Return {| content := [ {| type := "text"; text := Some ("Error: " ++ failure) |} ];
              isError := Some true |} /\
  requests (call_tool rt request) = [rq] /\
  occurs_in (decimal (Http.status r)) ("Error: " ++ failure) /\
  occurs_in b ("Error: " ++ failure).
Proof.
  intros Hin Hf Hok Ht failure.
  destruct (call_tool_unfold rt request) as [Hq Hr].
  rewrite Hq in Hin |- *. rewrite Hr.
  destruct (one_call_dispatch rt (name request) (arguments request))
    as [Hs | (endpoint & options & Hreq & Hfail)].
  - unfold silent in Hs. rewrite Hs in Hin. destruct Hin.
  - rewrite Hreq in Hin |- *. destruct Hin as [<- | []].
    pose proof (hubspotRequest_rejected rt endpoint options r b Hf Hok Ht) as Hrej.
    fold failure in Hrej. rewrite (Hfail _ Hrej).
    repeat split.
    + exists endpoint, options. split; [reflexivity | exact Hrej].
    + exists "Error: HubSpot API error: ", (" - " ++ b). reflexivity.
    + exists ("Error: HubSpot API error: " ++ decimal (Http.status r) ++ " - "),
        EmptyString.
      unfold failure. now rewrite append_nil_r, !append_assoc.
Qed.

Lemma non_success_status_is_reported_witness :
  result (call_tool (Sample.answering 401 "unauthorized" JNull)
                    (Sample.call "search_contacts" [("query", JStr "bob")])) =
  Return {| content :=
              [ {| type := "text";
                   text := Some "Error: HubSpot API error: 401 - unauthorized" |} ];
            isError := Some true |}.
Proof.
  refine (proj1 (proj2 (non_success_status_is_reported
    (Sample.answering 401 "unauthorized" JNull)
    (Sample.call "search_contacts" [("query", JStr "bob")])
    (hd {| Http.url := EmptyString; Http.method := None;
           Http.headers := []; Http.body := None |}
        (requests (call_tool (Sample.answering 401 "unauthorized" JNull)
                     (Sample.call "search_contacts" [("query", JStr "bob")]))))
    {| Http.status := 401; Http.text := inr "unauthorized"; Http.json := inr JNull |}
    "unauthorized" _ _ _ _))).
  - vm_compute. left. reflexivity.
  - reflexivity.
  - reflexivity.
  - reflexivity.
Defined.

(** ** Requests built from an argument object *)

Section Requests.
Variable rt : runtime.

Lemma get_JObj (props : list (string * value)) (k : string) :
  get rt (JObj props) k = ret (field k props).
Proof. unfold field. simpl. destruct (lookup k props); reflexivity. Qed.

Lemma bind_return {A B : Type} (a : A) (f : A -> M B) :
  bind ([], Return a) f = f a.
Proof. apply (bind_ret a f). Qed.

Lemma requests_single {A : Type} endpoint options (k : value -> M A) :
  (forall data, silent (k data)) ->
  requests (bind (hubspotRequest rt endpoint options) k) =
  [outbound rt endpoint options].
Proof.
  intros Hk. rewrite requests_bind, requests_hubspotRequest.
  destruct (result (hubspotRequest rt endpoint options)); [reflexivity |].
  now rewrite Hk.
Qed.

Lemma bind_accepted {A : Type} endpoint options (k : value -> M A)
      (r : Http.response) (data : value) :
  fetch rt (outbound rt endpoint options) = Http.Responded r ->
  Http.ok r = true ->
  Http.json r = inr data ->
  result (bind (hubspotRequest rt endpoint options) k) = result (k data).
Proof.
  intros Hf Hok Hj.
  now rewrite result_bind, (hubspotRequest_accepted rt _ _ r data Hf Hok Hj).
Qed.

Lemma dispatch_get_contact args :
  dispatch rt "get_contact" args = get_contact rt args.
Proof. reflexivity. Qed.

Lemma get_contact_by_email props id :
  lookup "contact_id" props = Some (JStr id) ->
  includes "@" id = true ->
  get_contact rt (JObj props) =
  (data <- (searchData <- hubspotRequest rt "/crm/v3/objects/contacts/search"
                            (post rt (email_search (JStr id))) ;;
            results <- get rt searchData "results" ;;
            get_first rt results) ;;
   ret {| content := [text_block (stringify_pretty rt data)]; isError := None |}).
Proof.
  intros Hid Hat. unfold get_contact.
  rewrite get_JObj, bind_ret. unfold field. rewrite Hid. simpl call_includes.
  rewrite Hat, bind_ret. reflexivity.
Qed.

Lemma get_contact_by_id props id :
  lookup "contact_id" props = Some (JStr id) ->
  includes "@" id = false ->
  get_contact rt (JObj props) =
  (data <- hubspotRequest rt
             ("/crm/v3/objects/contacts/" ++ id
                ++ "?properties=firstname,lastname,email,phone,company,lifecyclestage")
             no_options ;;
   ret {| content := [text_block (stringify_pretty rt data)]; isError := None |}).
Proof.
  intros Hid Hat. unfold get_contact.
  rewrite get_JObj, bind_ret. unfold field. rewrite Hid. simpl call_includes.
  rewrite Hat, bind_ret.
  change (ToString rt (JStr id)) with (@ret string id).
  rewrite bind_ret. reflexivity.
Qed.

End Requests.

(** C5, as the code has it: for a [get_contact] invocation whose
    [contact_id] is a string without ["@"], the one outbound request is a
    GET (no method and no body are given to [fetch]) to the fixed base
    address followed by [/crm/v3/objects/contacts/<id>?properties=] and
    the six property names joined by commas. *)
Theorem get_contact_by_id_request
  (rt : runtime) (props : list (string * value)) (id : string) :
  lookup "contact_id" props = Some (JStr id) ->
  includes "@" id = false ->
  exists rq,
    requests (call_tool rt {| name := "get_contact"; arguments := JObj props |})
      = [rq] /\
    rq = {| Http.url :=
              "https://api.hubapi.com" ++ "/crm/v3/objects/contacts/" ++ id
                ++ "?properties="
                ++ concat "," ["firstname"; "lastname"; "email"; "phone";
                               "company"; "lifecyclestage"];
            Http.method := None;
            Http.headers := standard_headers rt;
            Http.body := None |} /\
    Http.effective_method rq = "GET".
Proof.
  intros Hid Hat. eexists. split; [| split; [reflexivity | reflexivity]].
  destruct (call_tool_unfold rt {| name := "get_contact"; arguments := JObj props |})
    as [Hq _].
  rewrite Hq. simpl name. simpl arguments.
  rewrite dispatch_get_contact, (get_contact_by_id rt props id Hid Hat).
  rewrite requests_single by (intros; apply silent_ret).
  reflexivity.
Qed.

Lemma get_contact_by_id_request_witness :
  requests (call_tool (Sample.answering 200 "{}" (JObj []))
                      (Sample.call "get_contact" [("contact_id", JStr "12345")])) =
  [ {| Http.url := "https://api.hubapi.com/crm/v3/objects/contacts/12345?properties=firstname,lastname,email,phone,company,lifecyclestage";
       Http.method := None;
       Http.headers := [ ("Authorization", "Bearer pat-na1-sample");
                         ("Content-Type", "application/json") ];
       Http.body := None |} ].
Proof.
  destruct (get_contact_by_id_request (Sample.answering 200 "{}" (JObj []))
              [("contact_id", JStr "12345")] "12345" eq_refl eq_refl)
    as (rq & Hq & Hrq & _).
  rewrite Hrq in Hq. exact Hq.
Defined.

(** C5, as the specification words it, fails: the path of the request for
    contact ["12345"] is not [/crm/v3/objects/12345?properties=...]. *)
Lemma get_contact_path_counterexample :
  includes "@" "12345" = false /\
  exists rq,
    requests (call_tool (Sample.answering 200 "{}" (JObj []))
                        (Sample.call "get_contact" [("contact_id", JStr "12345")]))
      = [rq] /\
    Http.url rq <>
      HUBSPOT_API_BASE ++ "/crm/v3/objects/" ++ "12345" ++ "?properties="
        ++ concat "," ["firstname"; "lastname"; "email"; "phone";
                       "company"; "lifecyclestage"].
Proof.
  split; [reflexivity |].
  eexists. split; [vm_compute; reflexivity |].
  vm_compute. discriminate.
Qed.

(** C6: a [contact_id] with an ["@"] makes [get_contact] search: one POST
    to the contact search with an [EQ] filter on [email], the six
    properties and limit 1; the first element of the answer's [results]
    is what is rendered, [undefined] included when the array is empty,
    and the result is not an error. Any other [contact_id] string makes
    it fetch the record by id, with the same six properties. *)
Theorem get_contact_routes
  (rt : runtime) (props : list (string * value)) (id : string) :
  lookup "contact_id" props = Some (JStr id) ->
  let request := {| name := "get_contact"; arguments := JObj props |} in
  let search :=
    {| Http.url := "https://api.hubapi.com/crm/v3/objects/contacts/search";
       Http.method := Some "POST";
       Http.headers := standard_headers rt;
       Http.body :=
         JSON_stringify rt
           (JObj [ ("filterGroups",
                    JArr [ JObj [ ("filters",
                                   JArr [ JObj [ ("propertyName", JStr "email");
                                                 ("operator", JStr "EQ");
                                                 ("value", JStr id) ] ]) ] ]);
                   ("properties",
                    JArr [ JStr "firstname"; JStr "lastname"; JStr "email";
                           JStr "phone"; JStr "company"; JStr "lifecyclestage" ]);
                   ("limit", JNum (of_Z 1)) ])
           None |} in
  let by_id :=
    {| Http.url :=
         "https://api.hubapi.com/crm/v3/objects/contacts/" ++ id
           ++ "?properties=firstname,lastname,email,phone,company,lifecyclestage";
       Http.method := None;
       Http.headers := standard_headers rt;
       Http.body := None |} in
  (includes "@" id = true ->
   requests (call_tool rt request) = [search] /\
   forall r answer found,
     fetch rt search = Http.Responded r ->
     Http.ok r = true ->
     Http.json r = inr (JObj answer) ->
     lookup "results" answer = Some (JArr found) ->
     result (call_tool rt request) =
     Return {| content :=
                 [ {| type := "text";
                      text := JSON_stringify rt (nth 0 found JUndefined) (Some 2%nat) |} ];
               isError := None |}) /\
  (includes "@" id = false ->
   requests (call_tool rt request) = [by_id]).
Proof.
  intros Hid request search by_id.
  destruct (call_tool_unfold rt request) as [Hq Hr].
  simpl name in *. simpl arguments in *.
  rewrite dispatch_get_contact in Hq, Hr.
  split; intros Hat.
  - rewrite (get_contact_by_email rt props id Hid Hat) in Hq, Hr. split.
    + rewrite Hq, requests_bind, requests_single
        by (intros; auto 10 with silent).
      match goal with
      | |- context [result ?m] => destruct (result m)
      end; reflexivity.
    + intros r answer found Hf Hok Hj Hres. rewrite Hr.
      rewrite result_bind.
      change search with
        (outbound rt "/crm/v3/objects/contacts/search"
           (post rt (email_search (JStr id)))) in Hf.
      rewrite (bind_accepted rt _ _ _ r (JObj answer) Hf Hok Hj).
      rewrite get_JObj, bind_ret. unfold field. rewrite Hres. reflexivity.
  - rewrite (get_contact_by_id rt props id Hid Hat) in Hq.
    rewrite Hq, requests_single by (intros; apply silent_ret). reflexivity.
Qed.

(** The two calls of the specification's example: ["a@b.com"] with no
    match, and ["12345"]. *)
Lemma get_contact_routes_witness :
  call_tool (Sample.answering 200 "{}" (Sample.search_result []))
            (Sample.call "get_contact" [("contact_id", JStr "a@b.com")]) =
  ([ {| Http.url := "https://api.hubapi.com/crm/v3/objects/contacts/search";
        Http.method := Some "POST";
        Http.headers := [ ("Authorization", "Bearer pat-na1-sample");
                          ("Content-Type", "application/json") ];
        Http.body :=
          Sample.stringify (email_search (JStr "a@b.com")) None |} ],
   Return {| content := [ {| type := "text"; text := None |} ];
             isError := None |}) /\
  Http.url (hd (outbound (Sample.answering 200 "{}" (JObj [])) EmptyString no_options)
     (requests (call_tool (Sample.answering 200 "{}" (JObj []))
                  (Sample.call "get_contact" [("contact_id", JStr "12345")])))) =
  "https://api.hubapi.com/crm/v3/objects/contacts/12345?properties=firstname,lastname,email,phone,company,lifecyclestage".
Proof.
  split.
  - destruct (get_contact_routes (Sample.answering 200 "{}" (Sample.search_result []))
                [("contact_id", JStr "a@b.com")] "a@b.com" eq_refl)
      as [[Hq Hr] _]; [reflexivity |].
    apply M_ext; [exact Hq |].
    exact (Hr _ _ [] eq_refl eq_refl eq_refl eq_refl).
  - destruct (get_contact_routes (Sample.answering 200 "{}" (JObj []))
                [("contact_id", JStr "12345")] "12345" eq_refl)
      as [_ Hq].
    unfold Sample.call. rewrite (Hq eq_refl). reflexivity.
Defined.

(** C7: the one request of a [create_deal] invocation posts a [properties]
    object with exactly the fields [dealname], [amount], [dealstage] and
    [pipeline], in that order: the first three carry the arguments of
    those names, [pipeline] carries the argument or ["default"] when none
    is supplied, and no other argument field is in it. *)
Theorem create_deal_whitelist (rt : runtime) (props : list (string * value)) :
  exists dealname amount dealstage pipeline,
    requests (call_tool rt {| name := "create_deal"; arguments := JObj props |}) =
    [ {| Http.url := "https://api.hubapi.com/crm/v3/objects/deals";
         Http.method := Some "POST";
         Http.headers := standard_headers rt;
         Http.body :=
           JSON_stringify rt
             (JObj [ ("properties",
                      JObj [ ("dealname", dealname);
                             ("amount", amount);
                             ("dealstage", dealstage);
                             ("pipeline", pipeline) ]) ])
             None |} ] /\
    dealname = field "dealname" props /\
    amount = field "amount" props /\
    dealstage = field "dealstage" props /\
    pipeline = or_else (field "pipeline" props) (JStr "default") /\
    (lookup "pipeline" props = None -> pipeline = JStr "default") /\
    pipeline <> JUndefined /\
    (forall k,
        ~ In k ["dealname"; "amount"; "dealstage"; "pipeline"] ->
        lookup k [ ("dealname", dealname); ("amount", amount);
                   ("dealstage", dealstage); ("pipeline", pipeline) ] = None).
Proof.
  exists (field "dealname" props), (field "amount" props),
    (field "dealstage" props),
    (or_else (field "pipeline" props) (JStr "default")).
  repeat split.
  - destruct (call_tool_unfold rt {| name := "create_deal"; arguments := JObj props |})
      as [Hq _].
    rewrite Hq. simpl name. simpl arguments.
    change (dispatch rt "create_deal" (JObj props))
      with (create_deal rt (JObj props)).
    unfold create_deal, deal_properties.
    rewrite !get_JObj, !bind_ret.
    rewrite requests_single by (intros; auto 10 with silent).
    reflexivity.
  - intros Hp. unfold field. rewrite Hp. reflexivity.
  - unfold or_else. destruct (truthy (field "pipeline" props)) eqn:E.
    + intros Hu. rewrite Hu in E. discriminate.
    + discriminate.
  - intros k Hk. cbn [lookup].
    repeat match goal with
           | |- context [(?s =? k)%string] =>
               destruct (String.eqb_spec s k) as [<- | _];
               [ exfalso; apply Hk; simpl; tauto | ]
           end.
    reflexivity.
Qed.

(** The call of the specification's example: [foo] is not sent. *)
Lemma create_deal_whitelist_witness :
  requests (call_tool (Sample.answering 200 "{}" (JObj []))
              (Sample.call "create_deal"
                 [ ("dealname", JStr "Big"); ("amount", JNum (of_Z 5));
                   ("dealstage", JStr "won"); ("foo", JStr "bar") ])) =
  [ {| Http.url := "https://api.hubapi.com/crm/v3/objects/deals";
       Http.method := Some "POST";
       Http.headers := [ ("Authorization", "Bearer pat-na1-sample");
                         ("Content-Type", "application/json") ];
       Http.body :=
         Sample.stringify
           (JObj [ ("properties",
                    JObj [ ("dealname", JStr "Big");
                           ("amount", JNum (of_Z 5));
                           ("dealstage", JStr "won");
                           ("pipeline", JStr "default") ]) ])
           None |} ].
Proof.
  destruct (create_deal_whitelist (Sample.answering 200 "{}" (JObj []))
              [ ("dealname", JStr "Big"); ("amount", JNum (of_Z 5));
                ("dealstage", JStr "won"); ("foo", JStr "bar") ])
    as (d & a & s & p & Hq & -> & -> & -> & -> & _).
  exact Hq.
Defined.

(** ** The aggregation *)

Lemma lookup_assign {X : Type} (k k' : string) (v : X) (l : list (string * X)) :
  lookup k (assign k' v l) = if k' =? k then Some v else lookup k l.
Proof.
  induction l as [| [k0 v0] l IH]; simpl.
  - reflexivity.
  - destruct (String.eqb_spec k0 k') as [-> | Hne]; simpl.
    + destruct (k' =? k); reflexivity.
    + rewrite IH. destruct (String.eqb_spec k0 k) as [-> | _]; [| reflexivity].
      destruct (String.eqb_spec k' k) as [-> | _]; [congruence | reflexivity].
Qed.

Lemma assign_assign {X : Type} (k : string) (v v' : X) (l : list (string * X)) :
  assign k v (assign k v' l) = assign k v l.
Proof.
  induction l as [| [k0 v0] l IH]; simpl.
  - now rewrite String.eqb_refl.
  - destruct (String.eqb_spec k0 k) as [-> | Hne]; simpl.
    + now rewrite String.eqb_refl.
    + apply String.eqb_neq in Hne. now rewrite Hne, IH.
Qed.

(** The callback's three updates, in one step. *)
Lemma tally_summary (A : arith) (st : summary_state A) stage amount :
  summary (tally A st stage amount) =
  match lookup stage (summary st) with
  | Some e =>
      assign stage
        {| Stage.count := S (Stage.count e);
           Stage.totalValue := plus A (Stage.totalValue e) (inject A amount) |}
        (summary st)
  | None =>
      if inherited stage then summary st
      else assign stage
             {| Stage.count := 1;
                Stage.totalValue := plus A (zero A) (inject A amount) |}
             (summary st)
  end.
Proof.
  unfold tally, update, read. simpl.
  destruct (lookup stage (summary st)) as [e |] eqn:E; simpl.
  - rewrite E, lookup_assign, String.eqb_refl. simpl. apply assign_assign.
  - destruct (inherited stage) eqn:I; simpl.
    + repeat (progress (rewrite ?E; simpl)). reflexivity.
    + repeat (rewrite ?lookup_assign, ?String.eqb_refl; simpl).
      now rewrite !assign_assign.
Qed.

Lemma tally_totalValue (A : arith) (st : summary_state A) stage amount :
  totalValue (tally A st stage amount) =
  plus A (totalValue st) (inject A amount).
Proof. reflexivity. Qed.

Lemma lookup_tally (A : arith) (st : summary_state A) stage amount k :
  lookup k (summary (tally A st stage amount)) =
  if stage =? k then
    match lookup stage (summary st) with
    | Some e =>
        Some {| Stage.count := S (Stage.count e);
                Stage.totalValue := plus A (Stage.totalValue e) (inject A amount) |}
    | None =>
        if inherited stage then None
        else Some {| Stage.count := 1;
                     Stage.totalValue := plus A (zero A) (inject A amount) |}
    end
  else lookup k (summary st).
Proof.
  rewrite tally_summary.
  destruct (lookup stage (summary st)) as [e |] eqn:E.
  - apply lookup_assign.
  - destruct (inherited stage).
    + destruct (String.eqb_spec stage k) as [<- | _]; [exact E | reflexivity].
    + apply lookup_assign.
Qed.

Lemma tally_agree {A B : arith} (R : num A -> num B -> Prop) :
  R (zero A) (zero B) ->
  (forall a b x, R a b -> R (plus A a (inject A x)) (plus B b (inject B x))) ->
  forall st st' stage amount,
    states_agree R st st' ->
    states_agree R (tally A st stage amount) (tally B st' stage amount).
Proof.
  intros Hz Hp st st' stage amount [Ht He]. split.
  - rewrite !tally_totalValue. now apply Hp.
  - intros k. rewrite !lookup_tally.
    destruct (stage =? k); [| apply He].
    specialize (He stage). unfold entries_agree in *.
    destruct (lookup stage (summary st)) as [e |],
             (lookup stage (summary st')) as [e' |]; try contradiction.
    + destruct He as [Hc Hv]. simpl. split; [congruence | now apply Hp].
    + destruct (inherited stage); [exact I |].
      simpl. split; [reflexivity | now apply Hp].
Qed.

Lemma entries_agree_refl {X : Type} (R : X -> X -> Prop) :
  (forall a, R a a) -> forall o, entries_agree R o o.
Proof. intros Hr [e |]; simpl; auto. Qed.

Lemma entries_agree_trans {X : Type} (R : X -> X -> Prop) :
  (forall a b c, R a b -> R b c -> R a c) ->
  forall o1 o2 o3,
    entries_agree R o1 o2 -> entries_agree R o2 o3 -> entries_agree R o1 o3.
Proof.
  intros Ht [e1 |] [e2 |] [e3 |]; simpl; try tauto.
  intros [H1 H2] [H3 H4]. split; [congruence | eauto].
Qed.

Section OrderFree.
Variable A : arith.
Variable R : num A -> num A -> Prop.
Hypothesis laws : order_free A R.

Lemma states_agree_refl (st : summary_state A) : states_agree R st st.
Proof.
  split; [apply (related_refl A R laws) |].
  intros k. apply entries_agree_refl, (related_refl A R laws).
Qed.

Lemma states_agree_trans (s1 s2 s3 : summary_state A) :
  states_agree R s1 s2 -> states_agree R s2 s3 -> states_agree R s1 s3.
Proof.
  intros [H1 H2] [H3 H4]. split.
  - eapply (related_trans A R laws); eauto.
  - intros k. eapply entries_agree_trans; eauto. apply (related_trans A R laws).
Qed.

Lemma tally_agree_same st st' stage amount :
  states_agree R st st' ->
  states_agree R (tally A st stage amount) (tally A st' stage amount).
Proof.
  apply tally_agree.
  - apply (related_refl A R laws).
  - intros. now apply (plus_related A R laws).
Qed.

(** Two deals can be tallied in either order. *)
Lemma tally_swap st s1 a1 s2 a2 :
  states_agree R (tally A (tally A st s1 a1) s2 a2)
                 (tally A (tally A st s2 a2) s1 a1).
Proof.
  pose proof (related_refl A R laws) as Hrefl.
  pose proof (plus_swap A R laws) as Hswap.
  split.
  - rewrite !tally_totalValue. apply Hswap.
  - intros k. rewrite !lookup_tally.
    destruct (String.eqb_spec s1 s2) as [-> | Hne].
    + rewrite String.eqb_refl.
      destruct (s2 =? k); [| apply entries_agree_refl, Hrefl].
      destruct (lookup s2 (summary st)) as [e |]; simpl.
      * split; [reflexivity | apply Hswap].
      * destruct (inherited s2); simpl; [exact I |].
        split; [reflexivity | apply Hswap].
    + assert (Hne' : s2 <> s1) by congruence.
      rewrite ?(proj2 (String.eqb_neq _ _) Hne),
        ?(proj2 (String.eqb_neq _ _) Hne').
      destruct (String.eqb_spec s2 k) as [-> | H2k];
        destruct (String.eqb_spec s1 k) as [-> | H1k];
        try congruence; apply entries_agree_refl, Hrefl.
Qed.

Lemma outcomes_agree_trans c1 c2 c3 :
  outcomes_agree A R c1 c2 -> outcomes_agree A R c2 c3 ->
  outcomes_agree A R c1 c3.
Proof.
  destruct c1, c2, c3; simpl; try tauto. apply states_agree_trans.
Qed.

Lemma run_agree rs : forall st st',
  states_agree R st st' -> outcomes_agree A R (run A rs st) (run A rs st').
Proof.
  induction rs as [| [e | [stage amount]] rs IH]; intros st st' H; simpl.
  - exact H.
  - exact I.
  - apply IH. now apply tally_agree_same.
Qed.

(** The loop does not depend on the order of the deals. *)
Lemma run_permutation rs rs' :
  Permutation rs rs' ->
  forall st, outcomes_agree A R (run A rs st) (run A rs' st).
Proof.
  induction 1 as [| x l l' Hp IH | x y l | l l' l'' H1 IH1 H2 IH2]; intros st.
  - simpl. apply states_agree_refl.
  - destruct x as [e | [stage amount]]; simpl; [exact I | apply IH].
  - destruct x as [e | [s1 a1]], y as [e' | [s2 a2]]; simpl; try exact I.
    apply run_agree, tally_swap.
  - eapply outcomes_agree_trans; [apply IH1 | apply IH2].
Qed.

End OrderFree.

(** Stages and counts do not depend on the sums at all. *)
Lemma any_totals_order_free (A : arith) : order_free A any_totals.
Proof. split; intros; exact I. Qed.

(** Exact sums form a commutative monoid. *)
Lemma exact_plus_comm (x y : exact_num) : exact_plus x y = exact_plus y x.
Proof.
  destruct x as [a | [] |], y as [b | [] |]; simpl; try reflexivity.
  f_equal. lia.
Qed.

Lemma exact_plus_assoc (x y z : exact_num) :
  exact_plus (exact_plus x y) z = exact_plus x (exact_plus y z).
Proof.
  destruct x as [a | [] |], y as [b | [] |], z as [c | [] |]; simpl;
    try reflexivity.
  f_equal. lia.
Qed.

Lemma exact_plus_zero (x : exact_num) : exact_plus (EFinite 0) x = x.
Proof. destruct x as [a | [] |]; reflexivity. Qed.

Lemma exact_order_free : order_free exact eq.
Proof.
  split; simpl.
  - reflexivity.
  - intros; congruence.
  - intros; congruence.
  - intros a x y.
    now rewrite !exact_plus_assoc, (exact_plus_comm x y).
Qed.

(** ** The loop of the handler is [run] *)

Section Loop.
Variable rt : runtime.

Lemma accumulate_resolve (A : arith) (st : summary_state A) (deal : value) :
  accumulate rt A st deal =
  ([], match resolve rt deal with
       | Throw e => Throw e
       | Return (stage, amount) => Return (tally A st stage amount)
       end).
Proof.
  apply M_ext.
  - apply silent_accumulate.
  - unfold accumulate, resolve, stage_of, stage_value, amount_of, parseFloat.
    destruct deal as [| | | | | | props]; try reflexivity.
    cbn [get]. destruct (lookup "properties" props) as [ps |]; [| reflexivity].
    rewrite !bind_ret.
    destruct ps as [| | | | | | ps]; try reflexivity.
    cbn [get].
    destruct (lookup "dealstage" ps) as [stage |],
             (lookup "amount" ps) as [amount |];
      rewrite !bind_ret; unfold ToString;
      repeat match goal with
             | |- context [convertible ?v] => destruct (convertible v)
             end;
      reflexivity.
Qed.

Lemma for_each_run (A : arith) (deals : list value) : forall st,
  for_each (accumulate rt A) deals st = ([], run A (map (resolve rt) deals) st).
Proof.
  induction deals as [| deal deals IH]; intros st; simpl.
  - reflexivity.
  - rewrite accumulate_resolve.
    destruct (resolve rt deal) as [e | [stage amount]].
    + reflexivity.
    + rewrite bind_return. apply IH.
Qed.

Lemma aggregate_run (A : arith) (deals : list value) :
  result (aggregate rt A (JArr deals)) =
  match run A (map (resolve rt) deals) {| summary := []; totalValue := zero A |} with
  | Throw e => Throw e
  | Return st =>
      Return {| perStage := summary st;
                totalDeals := List.length deals;
                grandTotal := totalValue st |}
  end.
Proof.
  simpl. rewrite result_bind, for_each_run. simpl.
  destruct (run A _ _); reflexivity.
Qed.

Lemma aggregate_permutation (A : arith) (R : num A -> num A -> Prop) :
  order_free A R ->
  forall deals deals',
    Permutation deals deals' ->
    reports_agree R (result (aggregate rt A (JArr deals)))
                    (result (aggregate rt A (JArr deals'))).
Proof.
  intros laws deals deals' Hp. rewrite !aggregate_run.
  pose proof (run_permutation A R laws _ _
                (Permutation_map (resolve rt) Hp)
                {| summary := []; totalValue := zero A |}) as H.
  unfold outcomes_agree in H.
  destruct (run A (map (resolve rt) deals) _) as [e | st],
           (run A (map (resolve rt) deals') _) as [e' | st'];
    simpl; try tauto.
  destruct H as [Ht He]. repeat split; auto.
  now apply Permutation_length.
Qed.

End Loop.

(** C3: the aggregation is order-independent. Over any permutation of the
    returned deals it fails or succeeds alike; when it succeeds it reports
    the same deal count and the same stages with the same counts; and the
    per-stage totals and the grand total are the same up to the rounding
    of the sums, that is, they are equal when the sums are exact. *)
Theorem aggregation_order_independent
  (rt : runtime) (deals deals' : list value) :
  Permutation deals deals' ->
  match result (aggregate rt binary64 (JArr deals)),
        result (aggregate rt binary64 (JArr deals')) with
  | Return r, Return r' =>
      totalDeals r = totalDeals r' /\
      forall stage,
        option_map Stage.count (lookup stage (perStage r)) =
        option_map Stage.count (lookup stage (perStage r'))
  | Throw _, Throw _ => True
  | _, _ => False
  end /\
  match result (aggregate rt exact (JArr deals)),
        result (aggregate rt exact (JArr deals')) with
  | Return r, Return r' =>
      totalDeals r = totalDeals r' /\
      grandTotal r = grandTotal r' /\
      forall stage, lookup stage (perStage r) = lookup stage (perStage r')
  | Throw _, Throw _ => True
  | _, _ => False
  end.
Proof.
  intros Hp. split.
  - pose proof (aggregate_permutation rt binary64 any_totals
                  (any_totals_order_free binary64) _ _ Hp) as H.
    unfold reports_agree in H.
    destruct (result (aggregate rt binary64 (JArr deals))) as [e | r],
             (result (aggregate rt binary64 (JArr deals'))) as [e' | r'];
      try tauto.
    destruct H as (Hn & _ & Hs). split; [exact Hn |].
    intros stage. specialize (Hs stage). unfold entries_agree in Hs.
    destruct (lookup stage (perStage r)) as [[c t] |],
             (lookup stage (perStage r')) as [[c' t'] |];
      try tauto.
    simpl in *. destruct Hs. congruence.
  - pose proof (aggregate_permutation rt exact eq exact_order_free _ _ Hp) as H.
    unfold reports_agree in H.
    destruct (result (aggregate rt exact (JArr deals))) as [e | r],
             (result (aggregate rt exact (JArr deals'))) as [e' | r'];
      try tauto.
    destruct H as (Hn & Hg & Hs). repeat split; auto.
    intros stage. specialize (Hs stage). unfold entries_agree in Hs.
    destruct (lookup stage (perStage r)) as [[c t] |],
             (lookup stage (perStage r')) as [[c' t'] |];
      try tauto.
    simpl in Hs. destruct Hs. congruence.
Qed.

Lemma aggregation_order_independent_witness :
  Permutation [Sample.deal "won" "100"; Sample.deal "lost" "0.1"]
              [Sample.deal "lost" "0.1"; Sample.deal "won" "100"] /\
  match result (aggregate (Sample.answering 200 "{}" JNull) exact
                  (JArr [Sample.deal "won" "100"; Sample.deal "lost" "0.1"])),
        result (aggregate (Sample.answering 200 "{}" JNull) exact
                  (JArr [Sample.deal "lost" "0.1"; Sample.deal "won" "100"])) with
  | Return r, Return r' =>
      totalDeals r = totalDeals r' /\
      grandTotal r = grandTotal r' /\
      forall stage, lookup stage (perStage r) = lookup stage (perStage r')
  | Throw _, Throw _ => True
  | _, _ => False
  end.
Proof.
  split; [apply perm_swap |].
  apply (aggregation_order_independent (Sample.answering 200 "{}" JNull)
           [Sample.deal "won" "100"; Sample.deal "lost" "0.1"]
           [Sample.deal "lost" "0.1"; Sample.deal "won" "100"]).
  apply perm_swap.
Defined.

(** The run with exact sums is the run of the program as far as failures,
    stages and counts go. *)
Lemma run_shadow (A B : arith) rs : forall st st',
  states_agree (@any_totals (num A) (num B)) st st' ->
  match run A rs st, run B rs st' with
  | Return s, Return s' => states_agree (@any_totals (num A) (num B)) s s'
  | Throw _, Throw _ => True
  | _, _ => False
  end.
Proof.
  induction rs as [| [e | [stage amount]] rs IH]; intros st st' H; simpl.
  - exact H.
  - exact I.
  - apply IH. apply tally_agree; [exact I | intros; exact I | exact H].
Qed.

Lemma exact_shadows_binary64 (rt : runtime) (deals : list value) :
  reports_agree (A := binary64) (B := exact) (@any_totals _ _)
    (result (aggregate rt binary64 (JArr deals)))
    (result (aggregate rt exact (JArr deals))).
Proof.
  rewrite !aggregate_run.
  pose proof (run_shadow binary64 exact (map (resolve rt) deals)
                {| summary := []; totalValue := zero binary64 |}
                {| summary := []; totalValue := zero exact |}) as H.
  destruct (run binary64 _ _) as [e | st], (run exact _ _) as [e' | st'];
    simpl in *; try (apply H; split; [exact I | intros k; exact I]).
  destruct H as [_ He]; [split; [exact I | intros k; exact I] |].
  repeat split; auto.
Qed.

(** ** Records *)

Section Records.
Variable rt : runtime.

Lemma ToString_convertible v :
  convertible v = true ->
  ToString rt v = ret (to_string (number_to_string rt) v).
Proof. intros H. unfold ToString. now rewrite H. Qed.

Lemma parseFloat_convertible v :
  convertible v = true ->
  parseFloat rt v = ret (parse_float_string (to_string (number_to_string rt) v)).
Proof.
  intros H. unfold parseFloat. now rewrite (ToString_convertible v H), bind_ret.
Qed.

Lemma convertible_field k ps :
  forallb (fun kv => convertible (snd kv)) ps = true ->
  convertible (field k ps) = true.
Proof.
  unfold field. induction ps as [| [k0 v0] ps IH]; simpl; [reflexivity |].
  intros H. apply andb_prop in H. destruct H as [Hv Hps].
  destruct (k0 =? k)%string; auto.
Qed.

Lemma convertible_or_else v s :
  convertible v = true -> convertible (or_else v (JStr s)) = true.
Proof. intros H. unfold or_else. now destruct (truthy v). Qed.

Lemma stage_value_record props ps :
  lookup "properties" props = Some (JObj ps) ->
  stage_value rt (JObj props) =
  ret (or_else (field "dealstage" ps) (JStr "Unknown")).
Proof.
  intros H. unfold stage_value.
  rewrite get_JObj, bind_ret. unfold field at 1. rewrite H.
  rewrite get_JObj, bind_ret. reflexivity.
Qed.

Lemma stage_of_record props ps :
  lookup "properties" props = Some (JObj ps) ->
  stage_of rt (JObj props) =
  ToString rt (or_else (field "dealstage" ps) (JStr "Unknown")).
Proof.
  intros H. unfold stage_of.
  now rewrite (stage_value_record props ps H), bind_ret.
Qed.

Lemma amount_of_record props ps :
  lookup "properties" props = Some (JObj ps) ->
  amount_of rt (JObj props) =
  (parsed <- parseFloat rt (field "amount" ps) ;;
   ret (number_or parsed (of_Z 0))).
Proof.
  intros H. unfold amount_of.
  rewrite get_JObj, bind_ret. unfold field at 1. rewrite H.
  rewrite get_JObj, bind_ret. reflexivity.
Qed.

Lemma is_record_inv deal :
  is_record deal = true ->
  exists props ps,
    deal = JObj props /\ lookup "properties" props = Some (JObj ps) /\
    forallb (fun kv => convertible (snd kv)) ps = true.
Proof.
  destruct deal; try discriminate. simpl.
  destruct (lookup "properties" props) as [[] |] eqn:E; try discriminate.
  eauto.
Qed.

(** A [dealstage] or an [id] that does not convert to a string is outside
    the shapes: the callback and the creations throw on them. *)
Lemma shapes_leave_out_unconvertible_values :
  is_record (JObj [("properties",
                    JObj [("dealstage", JObj [("toString", JNum (of_Z 1))])])])
    = false /\
  is_object (JObj [("id", JArr [JObj [("toString", JNum (of_Z 1))]])]) = false.
Proof. split; reflexivity. Qed.

Lemma resolve_record deal :
  is_record deal = true ->
  exists stage amount,
    resolve rt deal = Return (stage, amount) /\
    result (stage_of rt deal) = Return stage.
Proof.
  intros H. destruct (is_record_inv deal H) as (props & ps & -> & Hp & Hc).
  unfold resolve.
  rewrite (stage_of_record props ps Hp), (amount_of_record props ps Hp).
  rewrite (ToString_convertible _
             (convertible_or_else _ "Unknown" (convertible_field "dealstage" ps Hc))).
  rewrite (parseFloat_convertible _ (convertible_field "amount" ps Hc)).
  rewrite !bind_ret. do 2 eexists. split; reflexivity.
Qed.

Lemma run_records (A : arith) deals :
  forallb is_record deals = true ->
  forall st, exists st', run A (map (resolve rt) deals) st = Return st'.
Proof.
  induction deals as [| deal deals IH]; simpl; intros H st.
  - eauto.
  - apply andb_prop in H. destruct H as [Hd Hds].
    destruct (resolve_record deal Hd) as (stage & amount & -> & _).
    apply IH, Hds.
Qed.

Lemma aggregate_records (A : arith) deals :
  forallb is_record deals = true ->
  exists r, aggregate rt A (JArr deals) = ret r.
Proof.
  intros H.
  destruct (run_records A deals H {| summary := []; totalValue := zero A |})
    as [st Hst].
  eexists. apply M_ext.
  - apply silent_aggregate.
  - rewrite aggregate_run, Hst. reflexivity.
Qed.

End Records.

(** ** Sums over the stages *)

Lemma sum_counts_assign_own {X : Type} k (e e' : Stage.entry X) l :
  lookup k l = Some e ->
  Stage.count e' = S (Stage.count e) ->
  sum_counts (assign k e' l) = S (sum_counts l).
Proof.
  intros Hl Hc. induction l as [| [k0 v0] l IH]; simpl in *; [discriminate |].
  destruct (k0 =? k); simpl.
  - inversion Hl; subst. lia.
  - rewrite (IH Hl). lia.
Qed.

Lemma sum_counts_assign_new {X : Type} k (e' : Stage.entry X) l :
  lookup k l = None ->
  sum_counts (assign k e' l) = (sum_counts l + Stage.count e')%nat.
Proof.
  intros Hl. induction l as [| [k0 v0] l IH]; simpl in *; [lia |].
  destruct (k0 =? k); [discriminate |]. simpl. rewrite (IH Hl). lia.
Qed.

Lemma sum_totals_assign_own k (e e' : Stage.entry exact_num) a l :
  lookup k l = Some e ->
  Stage.totalValue e' = exact_plus (Stage.totalValue e) a ->
  sum_totals exact (assign k e' l) = exact_plus (sum_totals exact l) a.
Proof.
  intros Hl Ht. induction l as [| [k0 v0] l IH]; simpl in *; [discriminate |].
  destruct (k0 =? k); simpl.
  - inversion Hl; subst. rewrite Ht.
    now rewrite !exact_plus_assoc, (exact_plus_comm a).
  - rewrite (IH Hl). now rewrite exact_plus_assoc.
Qed.

Lemma sum_totals_assign_new k (e' : Stage.entry exact_num) l :
  lookup k l = None ->
  sum_totals exact (assign k e' l) =
  exact_plus (sum_totals exact l) (Stage.totalValue e').
Proof.
  intros Hl. induction l as [| [k0 v0] l IH]; simpl in *.
  - apply exact_plus_comm.
  - destruct (k0 =? k); [discriminate |]. simpl.
    rewrite (IH Hl). now rewrite exact_plus_assoc.
Qed.

(** Tallying a deal whose stage is not an inherited name adds one to the
    counts and, with exact sums, its amount to the totals. *)
Lemma tally_sum_counts (A : arith) (st : summary_state A) stage amount :
  inherited stage = false ->
  sum_counts (summary (tally A st stage amount)) = S (sum_counts (summary st)).
Proof.
  intros Hi. rewrite tally_summary, Hi.
  destruct (lookup stage (summary st)) as [e |] eqn:E.
  - now apply (sum_counts_assign_own stage e).
  - rewrite (sum_counts_assign_new _ _ _ E). simpl. lia.
Qed.

Lemma tally_sum_totals (st : summary_state exact) stage amount :
  inherited stage = false ->
  sum_totals exact (summary (tally exact st stage amount)) =
  exact_plus (sum_totals exact (summary st)) (exact_of_number amount).
Proof.
  intros Hi. rewrite tally_summary, Hi.
  destruct (lookup stage (summary st)) as [e |] eqn:E.
  - now apply (sum_totals_assign_own stage e).
  - rewrite (sum_totals_assign_new _ _ _ E). f_equal.
    exact (exact_plus_zero _).
Qed.

Lemma run_sum_counts (A : arith) rs :
  Forall own_stage rs ->
  forall st st',
    run A rs st = Return st' ->
    sum_counts (summary st') = (sum_counts (summary st) + List.length rs)%nat.
Proof.
  induction 1 as [| [e | [stage amount]] rs Hx Hrs IH]; intros st st' Hrun;
    simpl in *.
  - inversion Hrun. lia.
  - discriminate.
  - rewrite (IH _ _ Hrun), (tally_sum_counts A st stage amount Hx). lia.
Qed.

Lemma run_sum_totals rs :
  Forall own_stage rs ->
  forall st st',
    totalValue st = sum_totals exact (summary st) ->
    run exact rs st = Return st' ->
    totalValue st' = sum_totals exact (summary st').
Proof.
  induction 1 as [| [e | [stage amount]] rs Hx Hrs IH]; intros st st' Hst Hrun;
    simpl in *.
  - inversion Hrun. subst. exact Hst.
  - discriminate.
  - apply (IH (tally exact st stage amount) st'); [| exact Hrun].
    rewrite tally_totalValue, (tally_sum_totals st stage amount Hx), Hst.
    reflexivity.
Qed.

(** C10, as the code has it: for deals that are records (a [properties]
    object whose values convert to strings) and whose stages
    are not names every object inherits, the aggregation succeeds, the
    reported [totalDeals] is the sum of the stages' counts, and the grand
    total is the sum of the stages' totals up to the rounding of the
    sums: the two are equal when the sums are exact. *)
Theorem totals_are_stage_sums (rt : runtime) (deals : list value) :
  forallb is_record deals = true ->
  (forall deal stage,
      In deal deals ->
      result (stage_of rt deal) = Return stage ->
      inherited stage = false) ->
  (exists r,
      result (aggregate rt binary64 (JArr deals)) = Return r /\
      totalDeals r = sum_counts (perStage r)) /\
  (exists r,
      result (aggregate rt exact (JArr deals)) = Return r /\
      totalDeals r = sum_counts (perStage r) /\
      grandTotal r = sum_totals exact (perStage r)).
Proof.
  intros Hrec Hown.
  assert (Hrs : Forall own_stage (map (resolve rt) deals)).
  { apply Forall_forall. intros c Hc. apply in_map_iff in Hc.
    destruct Hc as (deal & <- & Hin).
    assert (Hd : is_record deal = true).
    { rewrite forallb_forall in Hrec. now apply Hrec. }
    destruct (resolve_record rt deal Hd) as (stage & amount & -> & Hs).
    simpl. eapply Hown; eauto. }
  split.
  - destruct (run_records rt binary64 deals Hrec
                {| summary := []; totalValue := zero binary64 |}) as [st Hst].
    eexists. rewrite aggregate_run, Hst. split; [reflexivity |]. simpl.
    pose proof (run_sum_counts binary64 _ Hrs _ _ Hst) as Hc.
    rewrite length_map in Hc. simpl in Hc. now rewrite Hc.
  - destruct (run_records rt exact deals Hrec
                {| summary := []; totalValue := zero exact |}) as [st Hst].
    eexists. rewrite aggregate_run, Hst. split; [reflexivity |]. simpl. split.
    + pose proof (run_sum_counts exact _ Hrs _ _ Hst) as Hc.
      rewrite length_map in Hc. simpl in Hc. now rewrite Hc.
    + apply (run_sum_totals _ Hrs {| summary := []; totalValue := zero exact |});
        [reflexivity | exact Hst].
Qed.

Lemma totals_are_stage_sums_witness :
  exists r,
    result (aggregate (Sample.answering 200 "{}" JNull) exact
              (JArr [ Sample.deal "won" "100"; Sample.deal "won" "50";
                      Sample.deal EmptyString "bad" ])) = Return r /\
    totalDeals r = sum_counts (perStage r) /\
    grandTotal r = sum_totals exact (perStage r).
Proof.
  apply (totals_are_stage_sums (Sample.answering 200 "{}" JNull)
           [ Sample.deal "won" "100"; Sample.deal "won" "50";
             Sample.deal EmptyString "bad" ]).
  - reflexivity.
  - intros deal stage Hin Hs. simpl in Hin.
    decompose [or] Hin; subst; try contradiction;
      vm_compute in Hs; inversion Hs; reflexivity.
Defined.

(** C10, as stated, fails in binary64: the deals A:1e16, B:1, A:-1e16 give
    the stage totals 0 and 1 and the grand total 0. *)
Lemma grand_total_counterexample :
  result (aggregate (Sample.answering 200 "{}" JNull) binary64
            (JArr [ Sample.deal "A" "10000000000000000";
                    Sample.deal "B" "1";
                    Sample.deal "A" "-10000000000000000" ])) =
  Return (Build_report binary64
            [ ("A", {| Stage.count := 2; Stage.totalValue := of_Z 0 |});
              ("B", {| Stage.count := 1; Stage.totalValue := of_Z 1 |}) ]
            3
            (of_Z 0)) /\
  sum_totals binary64
    [ ("A", {| Stage.count := 2; Stage.totalValue := of_Z 0 |});
      ("B", {| Stage.count := 1; Stage.totalValue := of_Z 1 |}) ] = of_Z 1 /\
  of_Z 0 <> of_Z 1.
Proof.
  split; [reflexivity |].
  split; [reflexivity | discriminate].
Qed.

(** ** The specification's example *)

Lemma Permutation_three {X : Type} (a b c : X) (l : list X) :
  Permutation [a; b; c] l ->
  l = [a; b; c] \/ l = [a; c; b] \/ l = [b; a; c] \/
  l = [b; c; a] \/ l = [c; a; b] \/ l = [c; b; a].
Proof.
  intros H.
  destruct (Permutation_vs_cons_inv (Permutation_sym H)) as (l1 & l2 & ->).
  apply Permutation_cons_app_inv in H.
  apply Permutation_length_2_inv in H.
  destruct l1 as [| x [| y [| z l1]]]; simpl in *;
    destruct H as [H | H]; inversion H; subst; tauto.
Qed.

(** C2: the three deals of the example, in any order, are summarised as
    [won] with count 2 and total 150, [Unknown] with count 1 and total 0,
    3 deals and a grand total of 150. In general, for a deal with a
    [properties] object, the stage is ["Unknown"] when [dealstage] is
    absent or empty; the amount is 0 when the field is missing, what
    [parseFloat] reads in a string, or 0 when that is NaN (or a zero);
    and likewise for any other value [parseFloat] can convert to a
    string. *)
Theorem pipeline_summary_example (rt : runtime) :
  (forall deals,
      Permutation [ Sample.deal "won" "100"; Sample.deal "won" "50";
                    Sample.deal EmptyString "bad" ] deals ->
      exists r,
        result (aggregate rt binary64 (JArr deals)) = Return r /\
        (forall stage,
            lookup stage (perStage r) =
            if stage =? "won"
            then Some {| Stage.count := 2; Stage.totalValue := of_Z 150 |}
            else if stage =? "Unknown"
            then Some {| Stage.count := 1; Stage.totalValue := of_Z 0 |}
            else None) /\
        totalDeals r = 3%nat /\
        grandTotal r = of_Z 150) /\
  (forall props ps,
      lookup "properties" props = Some (JObj ps) ->
      (lookup "dealstage" ps = None \/
       lookup "dealstage" ps = Some (JStr EmptyString) ->
       result (stage_of rt (JObj props)) = Return "Unknown") /\
      (lookup "amount" ps = None ->
       result (amount_of rt (JObj props)) = Return (of_Z 0)) /\
      (forall s,
          lookup "amount" ps = Some (JStr s) ->
          result (amount_of rt (JObj props)) =
          Return (if falsy_number (parse_float_string s)
                  then of_Z 0 else parse_float_string s)) /\
      (forall x,
          result (parseFloat rt (field "amount" ps)) = Return x ->
          result (amount_of rt (JObj props)) =
          Return (if falsy_number x then of_Z 0 else x)) /\
      (result (parseFloat rt (field "amount" ps)) = Return S754_nan ->
       result (amount_of rt (JObj props)) = Return (of_Z 0))).
Proof.
  split.
  - intros deals Hp.
    assert (Hkeys : forall (e1 e2 : Stage.entry number) stage,
               (lookup stage [("won", e1); ("Unknown", e2)] =
                if stage =? "won" then Some e1
                else if stage =? "Unknown" then Some e2 else None) /\
               (lookup stage [("Unknown", e2); ("won", e1)] =
                if stage =? "won" then Some e1
                else if stage =? "Unknown" then Some e2 else None)).
    { intros e1 e2 stage. cbn [lookup].
      rewrite (String.eqb_sym "won" stage), (String.eqb_sym "Unknown" stage).
      destruct (String.eqb_spec stage "won") as [-> | _]; [split; reflexivity |].
      destruct (stage =? "Unknown"); split; reflexivity. }
    destruct (Permutation_three _ _ _ _ Hp) as [-> | [-> | [-> | [-> | [-> | ->]]]]];
      eexists; (split; [reflexivity |]);
      (split; [intros stage; apply Hkeys |]); split; reflexivity.
  - intros props ps Hps. split.
    + intros Hs. rewrite (stage_of_record rt props ps Hps). unfold field.
      destruct Hs as [-> | ->]; reflexivity.
    + rewrite (amount_of_record rt props ps Hps). repeat split.
      * intros Ha. unfold field. rewrite Ha. reflexivity.
      * intros s Ha. unfold field. rewrite Ha. reflexivity.
      * intros x Hx. rewrite result_bind, Hx. reflexivity.
      * intros Hn. rewrite result_bind, Hn. reflexivity.
Qed.

Lemma pipeline_summary_example_witness :
  exists r,
    result (aggregate (Sample.answering 200 "{}" JNull) binary64
              (JArr [ Sample.deal EmptyString "bad"; Sample.deal "won" "50";
                      Sample.deal "won" "100" ])) = Return r /\
    (forall stage,
        lookup stage (perStage r) =
        if stage =? "won"
        then Some {| Stage.count := 2; Stage.totalValue := of_Z 150 |}
        else if stage =? "Unknown"
        then Some {| Stage.count := 1; Stage.totalValue := of_Z 0 |}
        else None) /\
    totalDeals r = 3%nat /\
    grandTotal r = of_Z 150.
Proof.
  apply (proj1 (pipeline_summary_example (Sample.answering 200 "{}" JNull))).
  apply Permutation_rev
    with (l := [ Sample.deal "won" "100"; Sample.deal "won" "50";
                 Sample.deal EmptyString "bad" ]).
Defined.

(** ** Successful calls *)

Section Success.
Variable rt : runtime.

Lemma bind_assoc {A B C : Type} (m : M A) (f : A -> M B) (g : B -> M C) :
  bind (bind m f) g = bind m (fun a => bind (f a) g).
Proof.
  destruct m as [t [e | a]]; simpl; [reflexivity |].
  destruct (f a) as [t1 [e1 | b]]; simpl; [reflexivity |].
  destruct (g b) as [t2 c]. now rewrite app_assoc.
Qed.

(** A tool call that got as far as its outbound call, answered with
    success, goes on with the parsed body. *)
Lemma accepted_step {A : Type} endpoint options (k : value -> M A) :
  (forall rq,
      In rq (requests (bind (hubspotRequest rt endpoint options) k)) ->
      api_success rt rq) ->
  exists data,
    (if is_search (outbound rt endpoint options)
     then is_search_response data else is_object data) = true /\
    result (bind (hubspotRequest rt endpoint options) k) = result (k data) /\
    requests (bind (hubspotRequest rt endpoint options) k) =
      outbound rt endpoint options :: requests (k data).
Proof.
  intros H.
  destruct (H (outbound rt endpoint options)) as (r & data & Hf & Hok & Hj & Hs).
  { rewrite requests_bind, requests_hubspotRequest. now left. }
  exists data. split; [exact Hs |].
  rewrite result_bind, requests_bind.
  rewrite (hubspotRequest_accepted rt _ _ r data Hf Hok Hj). now split.
Qed.

Lemma is_search_response_inv data :
  is_search_response data = true ->
  exists props records,
    data = JObj props /\
    lookup "results" props = Some (JArr records) /\
    forallb is_record records = true.
Proof.
  destruct data; try discriminate. simpl.
  destruct (lookup "results" props) as [[] |] eqn:E; try discriminate.
  eauto.
Qed.

Lemma is_object_inv data :
  is_object data = true ->
  exists props, data = JObj props /\ convertible (field "id" props) = true.
Proof. destruct data; try discriminate. simpl. eauto. Qed.

Lemma search_contacts_succeeds props :
  (forall rq, In rq (requests (search_contacts rt (JObj props))) ->
              api_success rt rq) ->
  succeeds (search_contacts rt (JObj props)).
Proof.
  unfold search_contacts, succeeds. rewrite !get_JObj, !bind_ret. intros H.
  destruct (accepted_step _ _ _ H) as (data & Hs & -> & ->).
  change (is_search _) with true in Hs.
  destruct (is_search_response_inv data Hs) as (dp & records & -> & Hr & _).
  rewrite get_JObj, bind_ret. simpl. eauto.
Qed.

Lemma search_deals_succeeds props :
  (forall rq, In rq (requests (search_deals rt (JObj props))) ->
              api_success rt rq) ->
  succeeds (search_deals rt (JObj props)).
Proof.
  unfold search_deals, succeeds. rewrite !get_JObj, !bind_ret. intros H.
  destruct (accepted_step _ _ _ H) as (data & Hs & -> & ->).
  change (is_search _) with true in Hs.
  destruct (is_search_response_inv data Hs) as (dp & records & -> & Hr & _).
  rewrite get_JObj, bind_ret. simpl. eauto.
Qed.

Lemma create_contact_succeeds args :
  (forall rq, In rq (requests (create_contact rt args)) -> api_success rt rq) ->
  succeeds (create_contact rt args).
Proof.
  unfold create_contact, succeeds. intros H.
  destruct (accepted_step _ _ _ H) as (data & Hs & -> & ->).
  change (is_search _) with false in Hs.
  destruct (is_object_inv data Hs) as (dp & -> & Hid).
  rewrite get_JObj, bind_ret, (ToString_convertible rt _ Hid), bind_ret.
  simpl. eauto.
Qed.

Lemma create_deal_succeeds props :
  (forall rq, In rq (requests (create_deal rt (JObj props))) ->
              api_success rt rq) ->
  succeeds (create_deal rt (JObj props)).
Proof.
  unfold create_deal, deal_properties, succeeds.
  rewrite !get_JObj, !bind_ret. intros H.
  destruct (accepted_step _ _ _ H) as (data & Hs & -> & ->).
  change (is_search _) with false in Hs.
  destruct (is_object_inv data Hs) as (dp & -> & Hid).
  rewrite get_JObj, bind_ret, (ToString_convertible rt _ Hid), bind_ret.
  simpl. eauto.
Qed.

Lemma get_pipeline_summary_succeeds args :
  (forall rq, In rq (requests (get_pipeline_summary rt args)) ->
              api_success rt rq) ->
  succeeds (get_pipeline_summary rt args).
Proof.
  unfold get_pipeline_summary, succeeds. intros H.
  destruct (accepted_step _ _ _ H) as (data & Hs & -> & ->).
  change (is_search _) with true in Hs.
  destruct (is_search_response_inv data Hs) as (dp & records & -> & Hr & Hrec).
  rewrite get_JObj, bind_ret. unfold field. rewrite Hr.
  destruct (aggregate_records rt binary64 records Hrec) as [r ->].
  rewrite bind_ret. simpl. eauto.
Qed.

Lemma get_contact_succeeds props id :
  lookup "contact_id" props = Some (JStr id) ->
  (forall rq, In rq (requests (get_contact rt (JObj props))) ->
              api_success rt rq) ->
  succeeds (get_contact rt (JObj props)).
Proof.
  intros Hid. unfold succeeds.
  destruct (includes "@" id) eqn:Hat.
  - rewrite (get_contact_by_email rt props id Hid Hat), bind_assoc. intros H.
    destruct (accepted_step _ _ _ H) as (data & Hs & -> & ->).
    change (is_search _) with true in Hs.
    destruct (is_search_response_inv data Hs) as (dp & records & -> & Hr & _).
    rewrite get_JObj, bind_ret. unfold field. rewrite Hr.
    simpl. eauto.
  - rewrite (get_contact_by_id rt props id Hid Hat). intros H.
    destruct (accepted_step _ _ _ H) as (data & _ & -> & ->).
    simpl. eauto.
Qed.

End Success.

(** C8: each of the six advertised tools, called with an argument object
    that supplies its required fields with values of the declared types,
    makes one outbound call and, when that call succeeds (a success
    status and a body of the endpoint's shape, whose ids and property
    values convert to strings), returns a result that is not an error
    ([isError] is absent, which the protocol reads as false). *)
Theorem advertised_tools_succeed
  (rt : runtime) (d : Tool.definition) (args : value) :
  In d list_tools ->
  valid_arguments d args = true ->
  (forall rq,
      In rq (requests (call_tool rt {| name := Tool.name d; arguments := args |})) ->
      api_success rt rq) ->
  exists r rq,
    result (call_tool rt {| name := Tool.name d; arguments := args |}) = Return r /\
    isError r = None /\
    is_error r = false /\
    requests (call_tool rt {| name := Tool.name d; arguments := args |}) = [rq].
Proof.
  intros Hd Hv H.
  destruct (call_tool_unfold rt {| name := Tool.name d; arguments := args |})
    as [Hq Hr].
  rewrite Hq in H |- *. rewrite Hr. clear Hq Hr. cbn [name arguments] in *.
  destruct args as [| | | | | | props]; try discriminate Hv.
  assert (Hs : succeeds (dispatch rt (Tool.name d) (JObj props))).
  { simpl in Hd.
    destruct Hd as [<- | [<- | [<- | [<- | [<- | [<- | []]]]]]];
      cbn [Tool.name] in *.
    - now apply search_contacts_succeeds.
    - simpl in Hv.
      destruct (lookup "contact_id" props) as [[] |] eqn:E; try discriminate Hv.
      now apply (get_contact_succeeds rt props s).
    - now apply create_contact_succeeds.
    - now apply search_deals_succeeds.
    - now apply create_deal_succeeds.
    - now apply get_pipeline_summary_succeeds. }
  destruct Hs as (r & rq & Hres & He & Hreq).
  exists r, rq. rewrite Hres. unfold is_error. rewrite He. auto.
Qed.

Lemma advertised_tools_succeed_witness :
  exists r rq,
    result (call_tool
              (Sample.answering 200 "{}" (Sample.search_result [Sample.deal "won" "100"]))
              {| name := "get_contact";
                 arguments := JObj [("contact_id", JStr "a@b.com")] |}) = Return r /\
    isError r = None /\
    is_error r = false /\
    requests (call_tool
                (Sample.answering 200 "{}" (Sample.search_result [Sample.deal "won" "100"]))
                {| name := "get_contact";
                   arguments := JObj [("contact_id", JStr "a@b.com")] |}) = [rq].
Proof.
  apply (advertised_tools_succeed
           (Sample.answering 200 "{}" (Sample.search_result [Sample.deal "won" "100"]))
           {| Tool.name := "get_contact";
              Tool.description := "Get detailed information about a specific contact";
              Tool.inputSchema :=
                {| Schema.properties :=
                     [ ("contact_id",
                        string_property "HubSpot contact ID or email address") ];
                   Schema.required := ["contact_id"] |} |}
           (JObj [("contact_id", JStr "a@b.com")])).
  - right. left. reflexivity.
  - reflexivity.
  - intros rq Hin. vm_compute in Hin. destruct Hin as [<- | []].
    unfold api_success. do 2 eexists. repeat split; reflexivity.
Defined.

(** ** The summary tool renders the aggregation *)

Lemma get_pipeline_summary_reports
  (rt : runtime) (args : value) (r0 : Http.response)
  (answer : list (string * value)) (results : value) (r : report binary64) :
  fetch rt (outbound rt "/crm/v3/objects/deals/search"
              (post rt (JObj [ ("properties", names ["dealname"; "amount"; "dealstage"]);
                               ("limit", JNum (of_Z 100)) ]))) = Http.Responded r0 ->
  Http.ok r0 = true ->
  Http.json r0 = inr (JObj answer) ->
  lookup "results" answer = Some results ->
  result (aggregate rt binary64 results) = Return r ->
  result (call_tool rt {| name := "get_pipeline_summary"; arguments := args |}) =
  Return {| content :=
              [ {| type := "text";
                   text := Some ("Pipeline Summary:" ++ newline
                                   ++ interpolate (stringify_pretty rt (report_value r))) |} ];
            isError := None |}.
Proof.
  intros Hf Hok Hj Hres Hagg.
  destruct (call_tool_unfold rt {| name := "get_pipeline_summary"; arguments := args |})
    as [_ Hr].
  rewrite Hr. cbn [name arguments].
  change (dispatch rt "get_pipeline_summary" args)
    with (get_pipeline_summary rt args).
  unfold get_pipeline_summary.
  rewrite (bind_accepted rt _ _ _ r0 (JObj answer) Hf Hok Hj).
  rewrite get_JObj, bind_ret. unfold field. rewrite Hres.
  rewrite result_bind, Hagg. reflexivity.
Qed.

(** * Further properties of the dispatcher *)

(** ** The requests of the other tools *)

Lemma call_tool_requests (rt : runtime) (name : string) (args : value) :
  requests (call_tool rt {| name := name; arguments := args |}) =
  requests (dispatch rt name args).
Proof.
  exact (proj1 (call_tool_unfold rt {| name := name; arguments := args |})).
Qed.

Lemma call_tool_result (rt : runtime) (name : string) (args : value) :
  result (call_tool rt {| name := name; arguments := args |}) =
  match result (dispatch rt name args) with
  | Throw e => Return (error_result e)
  | Return r => Return r
  end.
Proof.
  exact (proj2 (call_tool_unfold rt {| name := name; arguments := args |})).
Qed.

(** X1: [search_contacts] makes one POST to the contact search: three filter
    groups of one [CONTAINS_TOKEN] filter each, on [email], [firstname]
    and [lastname], all with the [query] argument; five properties; and
    the [limit] argument, replaced by 10 when it is absent or falsy. *)
Theorem search_contacts_request (rt : runtime) (props : list (string * value)) :
  exists limit,
    requests (call_tool rt {| name := "search_contacts"; arguments := JObj props |}) =
    [ {| Http.url := "https://api.hubapi.com/crm/v3/objects/contacts/search";
         Http.method := Some "POST";
         Http.headers := standard_headers rt;
         Http.body :=
           JSON_stringify rt
             (JObj [ ("filterGroups",
                      JArr (map (fun property =>
                                   JObj [ ("filters",
                                           JArr [ JObj [ ("propertyName", JStr property);
                                                         ("operator", JStr "CONTAINS_TOKEN");
                                                         ("value", field "query" props) ] ]) ])
                                ["email"; "firstname"; "lastname"]));
                     ("properties",
                      JArr [ JStr "firstname"; JStr "lastname"; JStr "email";
                             JStr "phone"; JStr "company" ]);
                     ("limit", limit) ])
             None |} ] /\
    (lookup "limit" props = None -> limit = JNum (of_Z 10)) /\
    (forall l, lookup "limit" props = Some l ->
               limit = if truthy l then l else JNum (of_Z 10)).
Proof.
  exists (or_else (field "limit" props) (JNum (of_Z 10))). repeat split.
  - rewrite call_tool_requests.
    change (dispatch rt "search_contacts" (JObj props))
      with (search_contacts rt (JObj props)).
    unfold search_contacts. rewrite !get_JObj, !bind_ret.
    rewrite requests_single by (intros; auto 10 with silent).
    reflexivity.
  - intros H. unfold field. rewrite H. reflexivity.
  - intros l H. unfold field. rewrite H. reflexivity.
Qed.

(** X2: [search_deals] makes one POST to the deal search with five properties
    and the [limit] argument, replaced by 20 when absent or falsy. A
    truthy [pipeline_stage] becomes one [EQ] filter on [dealstage]; an
    absent or empty one leaves [filterGroups] undefined. *)
Theorem search_deals_request (rt : runtime) (props : list (string * value)) :
  exists filterGroups limit,
    requests (call_tool rt {| name := "search_deals"; arguments := JObj props |}) =
    [ {| Http.url := "https://api.hubapi.com/crm/v3/objects/deals/search";
         Http.method := Some "POST";
         Http.headers := standard_headers rt;
         Http.body :=
           JSON_stringify rt
             (JObj [ ("filterGroups", filterGroups);
                     ("properties",
                      JArr [ JStr "dealname"; JStr "amount"; JStr "dealstage";
                             JStr "pipeline"; JStr "closedate" ]);
                     ("limit", limit) ])
             None |} ] /\
    (lookup "limit" props = None -> limit = JNum (of_Z 20)) /\
    (forall l, lookup "limit" props = Some l ->
               limit = if truthy l then l else JNum (of_Z 20)) /\
    (lookup "pipeline_stage" props = None \/
     lookup "pipeline_stage" props = Some (JStr EmptyString) ->
     filterGroups = JUndefined) /\
    (forall stage,
        lookup "pipeline_stage" props = Some stage ->
        truthy stage = true ->
        filterGroups =
        JArr [ JObj [ ("filters",
                       JArr [ JObj [ ("propertyName", JStr "dealstage");
                                     ("operator", JStr "EQ");
                                     ("value", stage) ] ]) ] ]).
Proof.
  exists (if truthy (field "pipeline_stage" props)
          then JArr [ filter_on "dealstage" "EQ" (field "pipeline_stage" props) ]
          else JUndefined),
    (or_else (field "limit" props) (JNum (of_Z 20))).
  repeat split.
  - rewrite call_tool_requests.
    change (dispatch rt "search_deals" (JObj props))
      with (search_deals rt (JObj props)).
    unfold search_deals. rewrite !get_JObj, !bind_ret.
    rewrite requests_single by (intros; auto 10 with silent).
    destruct (truthy (field "pipeline_stage" props)); reflexivity.
  - intros H. unfold field. rewrite H. reflexivity.
  - intros l H. unfold field. rewrite H. reflexivity.
  - intros [H | H]; unfold field; rewrite H; reflexivity.
  - intros stage H Ht. unfold field. rewrite H, Ht. reflexivity.
Qed.

(** X3: [create_contact] posts its arguments as they are: whatever [args] is,
    an object with extra fields or even [undefined], the one request is a
    POST to the contacts whose body is the serialization of
    [{ properties: args }]. *)
Theorem create_contact_forwards_arguments (rt : runtime) (args : value) :
  requests (call_tool rt {| name := "create_contact"; arguments := args |}) =
  [ {| Http.url := "https://api.hubapi.com/crm/v3/objects/contacts";
       Http.method := Some "POST";
       Http.headers := standard_headers rt;
       Http.body := JSON_stringify rt (JObj [ ("properties", args) ]) None |} ].
Proof.
  rewrite call_tool_requests.
  change (dispatch rt "create_contact" args) with (create_contact rt args).
  unfold create_contact.
  rewrite requests_single by (intros; auto 10 with silent).
  reflexivity.
Qed.

(** X4: [get_pipeline_summary] does not look at its arguments: whatever they
    are, the call is the same, and its one request is an unfiltered POST
    to the deal search for three properties of at most 100 deals. *)
Theorem get_pipeline_summary_ignores_arguments (rt : runtime) (args args' : value) :
  call_tool rt {| name := "get_pipeline_summary"; arguments := args |} =
  call_tool rt {| name := "get_pipeline_summary"; arguments := args' |} /\
  requests (call_tool rt {| name := "get_pipeline_summary"; arguments := args |}) =
  [ {| Http.url := "https://api.hubapi.com/crm/v3/objects/deals/search";
       Http.method := Some "POST";
       Http.headers := standard_headers rt;
       Http.body :=
         JSON_stringify rt
           (JObj [ ("properties",
                    JArr [ JStr "dealname"; JStr "amount"; JStr "dealstage" ]);
                   ("limit", JNum (of_Z 100)) ])
           None |} ].
Proof.
  split; [reflexivity |].
  rewrite call_tool_requests.
  change (dispatch rt "get_pipeline_summary" args)
    with (get_pipeline_summary rt args).
  unfold get_pipeline_summary.
  rewrite requests_single by (intros; auto 10 with silent).
  reflexivity.
Qed.

(** ** Calls that fail before any request *)

(** X5: With no arguments at all ([undefined] or [null]) the four tools that
    read an argument fail on their first read, with the engine's
    [TypeError] for that property, and make no outbound call. *)
Theorem missing_arguments_make_no_call
  (rt : runtime) (args : value) (name key : string) :
  nullish args = true ->
  In (name, key) [ ("search_contacts", "limit"); ("get_contact", "contact_id");
                   ("search_deals", "limit"); ("create_deal", "dealname") ] ->
  call_tool rt {| name := name; arguments := args |} =
  ([], Return {| content :=
                   [ {| type := "text";
                        text := Some ("Error: "
                                        ++ type_error_message rt (ReadOfNullish args key)) |} ];
                 isError := Some true |}).
Proof.
  intros Hn Hin. simpl in Hin.
  destruct args; try discriminate Hn;
    decompose [or] Hin; try contradiction;
    match goal with H : (_, _) = (_, _) |- _ => inversion H; subst end;
    reflexivity.
Qed.

Lemma missing_arguments_make_no_call_witness :
  call_tool (Sample.answering 200 "{}" (JObj []))
            {| name := "create_deal"; arguments := JUndefined |} =
  ([], Return {| content :=
                   [ {| type := "text";
                        text := Some "Error: Cannot read properties of undefined (reading 'dealname')" |} ];
                 isError := Some true |}).
Proof.
  apply (missing_arguments_make_no_call (Sample.answering 200 "{}" (JObj []))
           JUndefined "create_deal" "dealname").
  - reflexivity.
  - simpl. tauto.
Defined.

(** X6: [get_contact] needs a [contact_id] with an [includes] method: when it
    is absent or [null] the read of [includes] fails, when it is a number,
    a boolean or an object the call of [includes] fails; either way no
    outbound call is made. *)
Theorem get_contact_rejects_other_ids
  (rt : runtime) (props : list (string * value)) :
  (forall s, field "contact_id" props <> JStr s) ->
  (forall l, field "contact_id" props <> JArr l) ->
  call_tool rt {| name := "get_contact"; arguments := JObj props |} =
  ([], Return {| content :=
                   [ {| type := "text";
                        text :=
                          Some ("Error: "
                                  ++ type_error_message rt
                                       (if nullish (field "contact_id" props)
                                        then ReadOfNullish (field "contact_id" props)
                                                           "includes"
                                        else NotAFunction "args.contact_id.includes")) |} ];
                 isError := Some true |}).
Proof.
  intros Hs Ha. unfold call_tool. cbn [name arguments].
  change (dispatch rt "get_contact" (JObj props))
    with (get_contact rt (JObj props)).
  unfold get_contact. rewrite get_JObj, bind_ret.
  destruct (field "contact_id" props) eqn:E; try reflexivity.
  - exfalso. now apply (Hs s).
  - exfalso. now apply (Ha elems).
Qed.

Lemma get_contact_rejects_other_ids_witness :
  call_tool (Sample.answering 200 "{}" (JObj []))
            (Sample.call "get_contact" [("contact_id", JNum (of_Z 12345))]) =
  ([], Return {| content :=
                   [ {| type := "text";
                        text := Some "Error: args.contact_id.includes is not a function" |} ];
                 isError := Some true |}).
Proof.
  apply (get_contact_rejects_other_ids (Sample.answering 200 "{}" (JObj []))
           [("contact_id", JNum (of_Z 12345))]).
  - intros s H. discriminate H.
  - intros l H. discriminate H.
Defined.

(** ** What every outbound request looks like *)

Lemma prefix_append (s t : string) : prefix s (s ++ t) = true.
Proof.
  induction s as [| c s IH]; simpl; [destruct t; reflexivity |].
  destruct (ascii_dec c c); [exact IH | congruence].
Qed.

Section Plain.
Variable rt : runtime.

Lemma plain_call_bind {A B : Type} (m : M A) (f : A -> M B) :
  silent m -> (forall a, plain_call rt (f a)) -> plain_call rt (bind m f).
Proof.
  intros Hm Hf. destruct m as [t [e | a]]; unfold silent in Hm; simpl in Hm; subst t.
  - left. reflexivity.
  - rewrite bind_return. apply Hf.
Qed.

Lemma plain_call_request {A : Type} endpoint options (k : value -> M A) :
  plain rt options ->
  (forall data, silent (k data)) ->
  plain_call rt (bind (hubspotRequest rt endpoint options) k).
Proof.
  intros Hp Hk. right. exists endpoint, options. split; [| exact Hp].
  now apply requests_single.
Qed.

Lemma plain_post (v : value) : plain rt (post rt v).
Proof. right. now exists v. Qed.

Lemma plain_no_options : plain rt no_options.
Proof. now left. Qed.

Ltac plain_call_steps :=
  repeat first
    [ apply plain_call_request;
      [ first [ apply plain_post | apply plain_no_options ]
      | intros; solve [ auto 10 with silent ] ]
    | apply plain_call_bind; [ solve [ auto 10 with silent ] | intros ] ].

Lemma plain_call_dispatch name args : plain_call rt (dispatch rt name args).
Proof.
  unfold dispatch.
  repeat match goal with
         | |- plain_call rt (if ?b then _ else _) => destruct b
         end;
    try (left; reflexivity).
  - unfold search_contacts. plain_call_steps.
  - unfold get_contact. plain_call_steps.
    match goal with |- context [if ?b then _ else _] => destruct b end.
    + rewrite bind_assoc. plain_call_steps.
    + rewrite bind_assoc. plain_call_steps.
  - unfold create_contact. plain_call_steps.
  - unfold search_deals. plain_call_steps.
  - unfold create_deal. plain_call_steps.
  - unfold get_pipeline_summary. plain_call_steps.
Qed.

End Plain.

(** X7: Whatever the tool and its arguments, a request handed to [fetch] goes
    to the fixed base address, carries the bearer credential and the JSON
    content type and nothing else in its headers, is either a GET without
    body (no method given) or a POST of a serialized value, and is the
    only request of the invocation. *)
Theorem every_request_is_well_formed
  (rt : runtime) (request : call_tool_request) (rq : Http.request) :
  In rq (requests (call_tool rt request)) ->
  prefix "https://api.hubapi.com" (Http.url rq) = true /\
  Http.headers rq =
    [ ("Authorization",
       "Bearer " ++ to_string (number_to_string rt) (HUBSPOT_API_KEY rt));
      ("Content-Type", "application/json") ] /\
  ((Http.method rq = None /\ Http.body rq = None) \/
   (Http.method rq = Some "POST" /\
    exists v, Http.body rq = JSON_stringify rt v None)) /\
  requests (call_tool rt request) = [rq].
Proof.
  intros Hin.
  destruct (call_tool_unfold rt request) as [Hq _]. rewrite Hq in Hin |- *.
  destruct (plain_call_dispatch rt (name request) (arguments request))
    as [Hs | (endpoint & options & Hreq & Hp)].
  - unfold silent in Hs. rewrite Hs in Hin. destruct Hin.
  - rewrite Hreq in Hin |- *. destruct Hin as [<- | []].
    split; [apply (prefix_append HUBSPOT_API_BASE endpoint) |].
    destruct Hp as [-> | [v ->]]; repeat split; auto.
    right. split; [reflexivity | now exists v].
Qed.

Lemma every_request_is_well_formed_witness :
  Http.headers
    (outbound (Sample.answering 200 "{}" (JObj [])) "/crm/v3/objects/contacts"
       (post (Sample.answering 200 "{}" (JObj [])) (JObj [("properties", JNull)]))) =
  [ ("Authorization", "Bearer pat-na1-sample");
    ("Content-Type", "application/json") ].
Proof.
  apply (every_request_is_well_formed (Sample.answering 200 "{}" (JObj []))
           {| name := "create_contact"; arguments := JNull |}).
  left. reflexivity.
Defined.

(** ** Headers given to the request helper *)

Lemma lookup_absent {X : Type} (k : string) (l : list (string * X)) :
  ~ In k (map fst l) -> lookup k l = None.
Proof.
  induction l as [| [k0 v0] l IH]; simpl; intros H; [reflexivity |].
  destruct (String.eqb_spec k0 k) as [-> | _]; [tauto |].
  apply IH. tauto.
Qed.

Lemma lookup_spread {X : Type} (k : string) (b : list (string * X)) :
  NoDup (map fst b) ->
  forall a,
    lookup k (spread a b) =
    match lookup k b with
    | Some v => Some v
    | None => lookup k a
    end.
Proof.
  unfold spread. induction b as [| [k1 v1] b IH]; simpl; intros Hd a.
  - reflexivity.
  - inversion Hd as [| ? ? Hn Hd']; subst.
    rewrite (IH Hd'), lookup_assign.
    destruct (String.eqb_spec k1 k) as [-> | _]; [| reflexivity].
    now rewrite (lookup_absent k b Hn).
Qed.

(** X8: The request helper lets the caller's headers win: a header the caller
    gives replaces the helper's own [Authorization] or [Content-Type], or
    is added to them; without it the helper's value stands. The URL is the
    base address followed by the endpoint. *)
Theorem caller_headers_override
  (rt : runtime) (endpoint : string) (options : request_options) (k : string) :
  NoDup (map fst (headers options)) ->
  lookup k (Http.headers (outbound rt endpoint options)) =
  match lookup k (headers options) with
  | Some v => Some v
  | None =>
      if k =? "Authorization"
      then Some ("Bearer " ++ to_string (number_to_string rt) (HUBSPOT_API_KEY rt))
      else if k =? "Content-Type" then Some "application/json"
      else None
  end /\
  Http.url (outbound rt endpoint options) = "https://api.hubapi.com" ++ endpoint.
Proof.
  intros Hd. split; [| reflexivity].
  unfold outbound. cbn [Http.headers]. rewrite (lookup_spread k _ Hd).
  destruct (lookup k (headers options)); [reflexivity |].
  cbn [lookup].
  rewrite (String.eqb_sym "Authorization" k), (String.eqb_sym "Content-Type" k).
  reflexivity.
Qed.

Lemma caller_headers_override_witness :
  lookup "Content-Type"
    (Http.headers
       (outbound (Sample.answering 200 "{}" (JObj [])) "/x"
          {| method := None; body := None;
             headers := [ ("Content-Type", "text/plain"); ("Accept", "*/*") ] |})) =
  Some "text/plain".
Proof.
  apply (caller_headers_override (Sample.answering 200 "{}" (JObj [])) "/x"
           {| method := None; body := None;
              headers := [ ("Content-Type", "text/plain"); ("Accept", "*/*") ] |}
           "Content-Type").
  repeat constructor; simpl; intuition discriminate.
Defined.

(** ** Failures of the outbound call *)

Lemma helper_failure_is_reported
  (rt : runtime) (request : call_tool_request) (rq : Http.request) :
  In rq (requests (call_tool rt request)) ->
  exists endpoint options,
    rq = outbound rt endpoint options /\
    requests (call_tool rt request) = [rq] /\
    forall e,
      result (hubspotRequest rt endpoint options) = Throw e ->
      result (call_tool rt request) = Return (error_result e).
Proof.
  intros Hin.
  destruct (call_tool_unfold rt request) as [Hq Hr].
  rewrite Hq in Hin |- *. rewrite Hr.
  destruct (one_call_dispatch rt (name request) (arguments request))
    as [Hs | (endpoint & options & Hreq & Hfail)].
  - unfold silent in Hs. rewrite Hs in Hin. destruct Hin.
  - rewrite Hreq in Hin |- *. destruct Hin as [<- | []].
    exists endpoint, options. repeat split.
    intros e He. now rewrite (Hfail e He).
Qed.

(** X9: When [fetch] itself rejects (the network fails), the invocation
    returns [isError = true] with the rejection's message after
    ["Error: "], and the failed call is not repeated. *)
Theorem network_failure_is_reported
  (rt : runtime) (request : call_tool_request) (rq : Http.request) (e : js_error) :
  In rq (requests (call_tool rt request)) ->
  fetch rt rq = Http.Rejected e ->
  result (call_tool rt request) =
    Return {| content := [ {| type := "text"; text := Some ("Error: " ++ message e) |} ];
              isError := Some true |} /\
  requests (call_tool rt request) = [rq].
Proof.
  intros Hin Hf.
  destruct (helper_failure_is_reported rt request rq Hin)
    as (endpoint & options & -> & Hreq & Hfail).
  split; [| exact Hreq]. apply Hfail.
  unfold hubspotRequest, call_fetch, bind. now rewrite Hf.
Qed.

Lemma network_failure_is_reported_witness :
  result (call_tool
            (Sample.runtime_with (fun _ => Http.Rejected (Error "socket hang up")))
            (Sample.call "search_deals" [])) =
  Return {| content := [ {| type := "text"; text := Some "Error: socket hang up" |} ];
            isError := Some true |}.
Proof.
  refine (proj1 (network_failure_is_reported
    (Sample.runtime_with (fun _ => Http.Rejected (Error "socket hang up")))
    (Sample.call "search_deals" [])
    (outbound (Sample.runtime_with (fun _ => Http.Rejected (Error "socket hang up")))
       "/crm/v3/objects/deals/search"
       (post (Sample.runtime_with (fun _ => Http.Rejected (Error "socket hang up")))
          (JObj [ ("filterGroups", JUndefined);
                  ("properties",
                   names ["dealname"; "amount"; "dealstage"; "pipeline"; "closedate"]);
                  ("limit", JNum (of_Z 20)) ])))
    (Error "socket hang up") _ _)).
  - left. reflexivity.
  - reflexivity.
Defined.

(** X10: When the answer's body cannot be read, that failure is what the
    invocation reports: a success status whose [json()] rejects, and a
    non-success status whose [text()] rejects (no ["HubSpot API error"]
    is built then), both give [isError = true] with the rejection's
    message. *)
Theorem unreadable_answer_is_reported
  (rt : runtime) (request : call_tool_request) (rq : Http.request)
  (r : Http.response) (e : js_error) :
  In rq (requests (call_tool rt request)) ->
  fetch rt rq = Http.Responded r ->
  (Http.ok r = true /\ Http.json r = inl e) \/
  (Http.ok r = false /\ Http.text r = inl e) ->
  result (call_tool rt request) =
    Return {| content := [ {| type := "text"; text := Some ("Error: " ++ message e) |} ];
              isError := Some true |} /\
  requests (call_tool rt request) = [rq].
Proof.
  intros Hin Hf Hbody.
  destruct (helper_failure_is_reported rt request rq Hin)
    as (endpoint & options & -> & Hreq & Hfail).
  split; [| exact Hreq]. apply Hfail.
  unfold hubspotRequest, call_fetch, bind. rewrite Hf.
  destruct Hbody as [[Hok Hj] | [Hok Ht]]; rewrite Hok; simpl.
  - now rewrite Hj.
  - now rewrite Ht.
Qed.

Lemma unreadable_answer_is_reported_witness :
  result (call_tool
            (Sample.runtime_with (fun _ =>
               Http.Responded {| Http.status := 200;
                                 Http.text := inr "<html>";
                                 Http.json := inl (Error "Unexpected token <") |}))
            {| name := "create_contact"; arguments := JObj [] |}) =
  Return {| content := [ {| type := "text"; text := Some "Error: Unexpected token <" |} ];
            isError := Some true |}.
Proof.
  refine (proj1 (unreadable_answer_is_reported
    (Sample.runtime_with (fun _ =>
       Http.Responded {| Http.status := 200;
                         Http.text := inr "<html>";
                         Http.json := inl (Error "Unexpected token <") |}))
    {| name := "create_contact"; arguments := JObj [] |}
    {| Http.url := "https://api.hubapi.com/crm/v3/objects/contacts";
       Http.method := Some "POST";
       Http.headers := [ ("Authorization", "Bearer pat-na1-sample");
                         ("Content-Type", "application/json") ];
       Http.body := Sample.stringify (JObj [ ("properties", JObj []) ]) None |}
    {| Http.status := 200; Http.text := inr "<html>";
       Http.json := inl (Error "Unexpected token <") |}
    (Error "Unexpected token <") _ _ _)).
  - left. reflexivity.
  - reflexivity.
  - left. split; reflexivity.
Defined.

(** ** Results of answered calls *)

Section Answered.
Variable rt : runtime.

Lemma answered_step {A : Type} endpoint options (k : value -> M A)
      (r0 : Http.response) (data : value) :
  (forall rq,
      In rq (requests (bind (hubspotRequest rt endpoint options) k)) ->
      fetch rt rq = Http.Responded r0) ->
  Http.ok r0 = true ->
  Http.json r0 = inr data ->
  result (bind (hubspotRequest rt endpoint options) k) = result (k data).
Proof.
  intros H Hok Hj. apply (bind_accepted rt _ _ _ r0 data); auto.
  apply H. rewrite requests_bind, requests_hubspotRequest. now left.
Qed.

Lemma isError_absent_dispatch name args :
  returns_only (fun r => isError r = None) (dispatch rt name args).
Proof.
  unfold dispatch.
  repeat (apply returns_only_if;
          [ solve [ unfold search_contacts, get_contact, create_contact,
                      search_deals, create_deal, get_pipeline_summary;
                    repeat (apply returns_only_bind; intros);
                    apply returns_only_ret; reflexivity ] | ]).
  intros r Hr. discriminate.
Qed.

End Answered.

(** X11: [isError] marks exactly the failures: when the [try] block returns,
    its result is returned as it is and has no [isError]; when it throws,
    the result has [isError = true] and the text ["Error: "] followed by
    the error's message. It is never [false]. *)
Theorem isError_marks_failures (rt : runtime) (request : call_tool_request) :
  exists r,
    result (call_tool rt request) = Return r /\
    isError r <> Some false /\
    match result (dispatch rt (name request) (arguments request)) with
    | Throw e =>
        isError r = Some true /\ text_of r = Some ("Error: " ++ message e)
    | Return r' => r = r' /\ isError r = None
    end.
Proof.
  destruct (call_tool_unfold rt request) as [_ Hr]. rewrite Hr.
  destruct (result (dispatch rt (name request) (arguments request)))
    as [e | r'] eqn:E.
  - exists (error_result e). repeat split. discriminate.
  - exists r'.
    pose proof (isError_absent_dispatch rt _ _ r' E) as Hn. simpl in Hn.
    repeat split; auto. rewrite Hn. discriminate.
Qed.

(** X12: The two searches render the answer's [results] as it is: whatever
    that value is, an array of records or [undefined] when the answer has
    no such field, it is what is serialized, and the result is not an
    error. *)
Theorem search_results_pass_through
  (rt : runtime) (name : string) (props : list (string * value))
  (r0 : Http.response) (answer : list (string * value)) :
  name = "search_contacts" \/ name = "search_deals" ->
  (forall rq,
      In rq (requests (call_tool rt {| name := name; arguments := JObj props |})) ->
      fetch rt rq = Http.Responded r0) ->
  Http.ok r0 = true ->
  Http.json r0 = inr (JObj answer) ->
  result (call_tool rt {| name := name; arguments := JObj props |}) =
  Return {| content :=
              [ {| type := "text";
                   text := JSON_stringify rt (field "results" answer) (Some 2%nat) |} ];
            isError := None |}.
Proof.
  intros Hname H Hok Hj.
  rewrite call_tool_requests in H. rewrite call_tool_result.
  destruct Hname as [-> | ->].
  - change (dispatch rt "search_contacts" (JObj props))
      with (search_contacts rt (JObj props)) in *.
    unfold search_contacts in *. rewrite !get_JObj, !bind_ret in *.
    rewrite (answered_step rt _ _ _ r0 (JObj answer) H Hok Hj).
    rewrite get_JObj, bind_ret. reflexivity.
  - change (dispatch rt "search_deals" (JObj props))
      with (search_deals rt (JObj props)) in *.
    unfold search_deals in *. rewrite !get_JObj, !bind_ret in *.
    rewrite (answered_step rt _ _ _ r0 (JObj answer) H Hok Hj).
    rewrite get_JObj, bind_ret. reflexivity.
Qed.

Lemma search_results_pass_through_witness :
  result (call_tool (Sample.answering 200 "{}" (JObj [("total", JNum (of_Z 0))]))
                    (Sample.call "search_contacts" [("query", JStr "bob")])) =
  Return {| content := [ {| type := "text"; text := None |} ]; isError := None |}.
Proof.
  apply (search_results_pass_through
           (Sample.answering 200 "{}" (JObj [("total", JNum (of_Z 0))]))
           "search_contacts" [("query", JStr "bob")]
           {| Http.status := 200; Http.text := inr "{}";
              Http.json := inr (JObj [("total", JNum (of_Z 0))]) |}
           [("total", JNum (of_Z 0))]).
  - now left.
  - intros rq _. reflexivity.
  - reflexivity.
  - reflexivity.
Defined.

(** X13: The two creations echo the answer: when the answer's [id] converts
    to a string, the text is the tool's label, that string, a newline
    and the serialized answer, and the result is not an error; an answer
    without [id] is such a case, and gives ["ID: undefined"]. When the
    [id] does not convert (an object with a [toString] member of its
    own, or an array holding one), the template literal throws and the
    result is the error with the engine's message. *)
Theorem create_results_echo_the_answer
  (rt : runtime) (name label : string) (props : list (string * value))
  (r0 : Http.response) (answer : list (string * value)) :
  In (name, label) [ ("create_contact", "Contact created successfully! ID: ");
                     ("create_deal", "Deal created successfully! ID: ") ] ->
  (forall rq,
      In rq (requests (call_tool rt {| name := name; arguments := JObj props |})) ->
      fetch rt rq = Http.Responded r0) ->
  Http.ok r0 = true ->
  Http.json r0 = inr (JObj answer) ->
  result (call_tool rt {| name := name; arguments := JObj props |}) =
  Return (if convertible (field "id" answer)
          then {| content :=
                    [ {| type := "text";
                         text :=
                           Some (label
                                   ++ to_string (number_to_string rt) (field "id" answer)
                                   ++ String (ascii_of_nat 10) EmptyString
                                   ++ match JSON_stringify rt (JObj answer) (Some 2%nat) with
                                      | Some s => s
                                      | None => "undefined"
                                      end) |} ];
                  isError := None |}
          else {| content :=
                    [ {| type := "text";
                         text := Some ("Error: " ++ type_error_message rt CannotConvert) |} ];
                  isError := Some true |}) /\
  (lookup "id" answer = None ->
   convertible (field "id" answer) = true /\
   to_string (number_to_string rt) (field "id" answer) = "undefined").
Proof.
  intros Hin H Hok Hj. split.
  - rewrite call_tool_requests in H. rewrite call_tool_result.
    simpl in Hin. destruct Hin as [Hp | [Hp | []]]; inversion Hp; subst.
    + change (dispatch rt "create_contact" (JObj props))
        with (create_contact rt (JObj props)) in *.
      unfold create_contact in *.
      rewrite (answered_step rt _ _ _ r0 (JObj answer) H Hok Hj).
      rewrite get_JObj, bind_ret. unfold ToString.
      destruct (convertible (field "id" answer)); reflexivity.
    + change (dispatch rt "create_deal" (JObj props))
        with (create_deal rt (JObj props)) in *.
      unfold create_deal, deal_properties in *.
      rewrite !get_JObj, !bind_ret in *.
      rewrite (answered_step rt _ _ _ r0 (JObj answer) H Hok Hj).
      rewrite get_JObj, bind_ret. unfold ToString.
      destruct (convertible (field "id" answer)); reflexivity.
  - intros Hid. unfold field. rewrite Hid. split; reflexivity.
Qed.

Lemma create_results_echo_the_answer_witness :
  result (call_tool (Sample.answering 200 "{}" (JObj [("created", JBool true)]))
                    (Sample.call "create_contact" [("email", JStr "a@b.com")])) =
  Return {| content :=
              [ {| type := "text";
                   text :=
                     Some ("Contact created successfully! ID: undefined"
                             ++ String (ascii_of_nat 10) EmptyString
                             ++ Sample.json (JObj [("created", JBool true)])) |} ];
            isError := None |} /\
  result (call_tool
            (Sample.answering 200 "{}"
               (JObj [("id", JObj [("toString", JNum (of_Z 1))])]))
            (Sample.call "create_deal" [("dealname", JStr "big")])) =
  Return {| content :=
              [ {| type := "text";
                   text := Some "Error: Cannot convert object to primitive value" |} ];
            isError := Some true |}.
Proof.
  split.
  - apply (create_results_echo_the_answer
             (Sample.answering 200 "{}" (JObj [("created", JBool true)]))
             "create_contact" "Contact created successfully! ID: "
             [("email", JStr "a@b.com")]
             {| Http.status := 200; Http.text := inr "{}";
                Http.json := inr (JObj [("created", JBool true)]) |}
             [("created", JBool true)]).
    + now left.
    + intros rq _. reflexivity.
    + reflexivity.
    + reflexivity.
  - apply (create_results_echo_the_answer
             (Sample.answering 200 "{}"
                (JObj [("id", JObj [("toString", JNum (of_Z 1))])]))
             "create_deal" "Deal created successfully! ID: "
             [("dealname", JStr "big")]
             {| Http.status := 200; Http.text := inr "{}";
                Http.json := inr (JObj [("id", JObj [("toString", JNum (of_Z 1))])]) |}
             [("id", JObj [("toString", JNum (of_Z 1))])]).
    + right. now left.
    + intros rq _. reflexivity.
    + reflexivity.
    + reflexivity.
Defined.

(** X14: A success status with the JSON body [null] is an error for every tool
    that reads a field of the answer: the engine's [TypeError] for the
    read of [results] (the searches and the summary) or of [id] (the
    creations) on [null]. *)
Theorem null_answer_is_an_error
  (rt : runtime) (name key : string) (props : list (string * value))
  (r0 : Http.response) :
  In (name, key) [ ("search_contacts", "results"); ("search_deals", "results");
                   ("get_pipeline_summary", "results");
                   ("create_contact", "id"); ("create_deal", "id") ] ->
  (forall rq,
      In rq (requests (call_tool rt {| name := name; arguments := JObj props |})) ->
      fetch rt rq = Http.Responded r0) ->
  Http.ok r0 = true ->
  Http.json r0 = inr JNull ->
  result (call_tool rt {| name := name; arguments := JObj props |}) =
  Return {| content :=
              [ {| type := "text";
                   text := Some ("Error: "
                                   ++ type_error_message rt (ReadOfNullish JNull key)) |} ];
            isError := Some true |}.
Proof.
  intros Hin H Hok Hj.
  rewrite call_tool_requests in H. rewrite call_tool_result.
  simpl in Hin.
  destruct Hin as [Hp | [Hp | [Hp | [Hp | [Hp | []]]]]]; inversion Hp; subst.
  - change (dispatch rt "search_contacts" (JObj props))
      with (search_contacts rt (JObj props)) in *.
    unfold search_contacts in *. rewrite !get_JObj, !bind_ret in *.
    now rewrite (answered_step rt _ _ _ r0 JNull H Hok Hj).
  - change (dispatch rt "search_deals" (JObj props))
      with (search_deals rt (JObj props)) in *.
    unfold search_deals in *. rewrite !get_JObj, !bind_ret in *.
    now rewrite (answered_step rt _ _ _ r0 JNull H Hok Hj).
  - change (dispatch rt "get_pipeline_summary" (JObj props))
      with (get_pipeline_summary rt (JObj props)) in *.
    unfold get_pipeline_summary in *.
    now rewrite (answered_step rt _ _ _ r0 JNull H Hok Hj).
  - change (dispatch rt "create_contact" (JObj props))
      with (create_contact rt (JObj props)) in *.
    unfold create_contact in *.
    now rewrite (answered_step rt _ _ _ r0 JNull H Hok Hj).
  - change (dispatch rt "create_deal" (JObj props))
      with (create_deal rt (JObj props)) in *.
    unfold create_deal, deal_properties in *.
    rewrite !get_JObj, !bind_ret in *.
    now rewrite (answered_step rt _ _ _ r0 JNull H Hok Hj).
Qed.

Lemma null_answer_is_an_error_witness :
  result (call_tool (Sample.answering 200 "null" JNull)
                    (Sample.call "create_deal" [("dealname", JStr "Big")])) =
  Return {| content :=
              [ {| type := "text";
                   text := Some "Error: Cannot read properties of null (reading 'id')" |} ];
            isError := Some true |}.
Proof.
  apply (null_answer_is_an_error (Sample.answering 200 "null" JNull)
           "create_deal" "id" [("dealname", JStr "Big")]
           {| Http.status := 200; Http.text := inr "null"; Http.json := inr JNull |}).
  - simpl. tauto.
  - intros rq _. reflexivity.
  - reflexivity.
  - reflexivity.
Defined.

(** X15: A fetch by id renders whatever JSON the answer holds, [null]
    included, and the result is not an error. *)
Theorem get_contact_by_id_renders_any_answer
  (rt : runtime) (props : list (string * value)) (id : string)
  (r0 : Http.response) (data : value) :
  lookup "contact_id" props = Some (JStr id) ->
  includes "@" id = false ->
  (forall rq,
      In rq (requests (call_tool rt {| name := "get_contact"; arguments := JObj props |})) ->
      fetch rt rq = Http.Responded r0) ->
  Http.ok r0 = true ->
  Http.json r0 = inr data ->
  result (call_tool rt {| name := "get_contact"; arguments := JObj props |}) =
  Return {| content :=
              [ {| type := "text"; text := JSON_stringify rt data (Some 2%nat) |} ];
            isError := None |}.
Proof.
  intros Hid Hat H Hok Hj.
  rewrite call_tool_requests in H. rewrite call_tool_result.
  rewrite dispatch_get_contact in *.
  rewrite (get_contact_by_id rt props id Hid Hat) in *.
  now rewrite (answered_step rt _ _ _ r0 data H Hok Hj).
Qed.

Lemma get_contact_by_id_renders_any_answer_witness :
  result (call_tool (Sample.answering 200 "null" JNull)
                    (Sample.call "get_contact" [("contact_id", JStr "12345")])) =
  Return {| content := [ {| type := "text"; text := Some "null" |} ];
            isError := None |}.
Proof.
  apply (get_contact_by_id_renders_any_answer (Sample.answering 200 "null" JNull)
           [("contact_id", JStr "12345")] "12345"
           {| Http.status := 200; Http.text := inr "null"; Http.json := inr JNull |}
           JNull); reflexivity.
Defined.

(** X16: A search by email needs the answer's [results]: when the answer is an
    object without it (or with [null]), reading its first element fails
    and the invocation is an error. *)
Theorem email_search_needs_results
  (rt : runtime) (props : list (string * value)) (id : string)
  (r0 : Http.response) (answer : list (string * value)) :
  lookup "contact_id" props = Some (JStr id) ->
  includes "@" id = true ->
  (forall rq,
      In rq (requests (call_tool rt {| name := "get_contact"; arguments := JObj props |})) ->
      fetch rt rq = Http.Responded r0) ->
  Http.ok r0 = true ->
  Http.json r0 = inr (JObj answer) ->
  nullish (field "results" answer) = true ->
  result (call_tool rt {| name := "get_contact"; arguments := JObj props |}) =
  Return {| content :=
              [ {| type := "text";
                   text := Some ("Error: "
                                   ++ type_error_message rt
                                        (ReadOfNullish (field "results" answer) "0")) |} ];
            isError := Some true |}.
Proof.
  intros Hid Hat H Hok Hj Hn.
  rewrite call_tool_requests in H. rewrite call_tool_result.
  rewrite dispatch_get_contact in *.
  rewrite (get_contact_by_email rt props id Hid Hat), bind_assoc in *.
  rewrite (answered_step rt _ _ _ r0 (JObj answer) H Hok Hj).
  rewrite get_JObj, bind_ret.
  destruct (field "results" answer); try discriminate Hn; reflexivity.
Qed.

Lemma email_search_needs_results_witness :
  result (call_tool (Sample.answering 200 "{}" (JObj []))
                    (Sample.call "get_contact" [("contact_id", JStr "a@b.com")])) =
  Return {| content :=
              [ {| type := "text";
                   text := Some "Error: Cannot read properties of undefined (reading '0')" |} ];
            isError := Some true |}.
Proof.
  apply (email_search_needs_results (Sample.answering 200 "{}" (JObj []))
           [("contact_id", JStr "a@b.com")] "a@b.com"
           {| Http.status := 200; Http.text := inr "{}"; Http.json := inr (JObj []) |}
           []); reflexivity.
Defined.

(** X17: The summary needs [results] to be an array: on an answer whose
    [results] is absent or [null] the read of [forEach] fails, on any
    other value that is not an array the call of [forEach] fails, and the
    invocation is an error. *)
Theorem summary_needs_an_array
  (rt : runtime) (args : value) (r0 : Http.response)
  (answer : list (string * value)) :
  (forall rq,
      In rq (requests (call_tool rt {| name := "get_pipeline_summary";
                                       arguments := args |})) ->
      fetch rt rq = Http.Responded r0) ->
  Http.ok r0 = true ->
  Http.json r0 = inr (JObj answer) ->
  (forall deals, field "results" answer <> JArr deals) ->
  result (call_tool rt {| name := "get_pipeline_summary"; arguments := args |}) =
  Return {| content :=
              [ {| type := "text";
                   text :=
                     Some ("Error: "
                             ++ type_error_message rt
                                  (if nullish (field "results" answer)
                                   then ReadOfNullish (field "results" answer) "forEach"
                                   else NotAFunction "data.results.forEach")) |} ];
            isError := Some true |}.
Proof.
  intros H Hok Hj Hna.
  rewrite call_tool_requests in H. rewrite call_tool_result.
  change (dispatch rt "get_pipeline_summary" args)
    with (get_pipeline_summary rt args) in *.
  unfold get_pipeline_summary in *.
  rewrite (answered_step rt _ _ _ r0 (JObj answer) H Hok Hj).
  rewrite get_JObj, bind_ret.
  destruct (field "results" answer) eqn:E; try reflexivity.
  exfalso. now apply (Hna elems).
Qed.

Lemma summary_needs_an_array_witness :
  result (call_tool (Sample.answering 200 "{}" (JObj [("results", JStr "none")]))
                    (Sample.call "get_pipeline_summary" [])) =
  Return {| content :=
              [ {| type := "text";
                   text := Some "Error: data.results.forEach is not a function" |} ];
            isError := Some true |}.
Proof.
  apply (summary_needs_an_array
           (Sample.answering 200 "{}" (JObj [("results", JStr "none")]))
           (JObj [])
           {| Http.status := 200; Http.text := inr "{}";
              Http.json := inr (JObj [("results", JStr "none")]) |}
           [("results", JStr "none")]); try reflexivity.
  intros deals H. discriminate H.
Defined.

(** * Further properties of the aggregation *)

Section Computes.
Variable A : arith.

Lemma run_of_pairs (ps : list (string * number)) : forall st,
  run A (map Return ps) st =
  Return (fold_left (fun s p => tally A s (fst p) (snd p)) ps st).
Proof.
  induction ps as [| [stage amount] ps IH]; intros st; simpl; [reflexivity |].
  apply IH.
Qed.

Lemma lookup_tally_entry (st : summary_state A) (p : string * number) k :
  lookup k (summary (tally A st (fst p) (snd p))) =
  tally_entry A k (lookup k (summary st)) p.
Proof.
  rewrite lookup_tally. unfold tally_entry.
  destruct (String.eqb_spec (fst p) k) as [-> | _]; reflexivity.
Qed.

Lemma lookup_fold_tally (ps : list (string * number)) k : forall st,
  lookup k (summary (fold_left (fun s p => tally A s (fst p) (snd p)) ps st)) =
  fold_left (tally_entry A k) ps (lookup k (summary st)).
Proof.
  induction ps as [| p ps IH]; intros st; simpl; [reflexivity |].
  now rewrite IH, lookup_tally_entry.
Qed.

Lemma totalValue_fold_tally (ps : list (string * number)) : forall st,
  totalValue (fold_left (fun s p => tally A s (fst p) (snd p)) ps st) =
  fold_left (fun t a => plus A t (inject A a)) (map snd ps) (totalValue st).
Proof.
  induction ps as [| p ps IH]; intros st; simpl; [reflexivity |].
  now rewrite IH.
Qed.

Lemma fold_tally_entry_own (ps : list (string * number)) k : forall e,
  fold_left (tally_entry A k) ps (Some e) =
  Some {| Stage.count := Stage.count e + List.length (amounts_of_stage k ps);
          Stage.totalValue :=
            fold_left (fun t a => plus A t (inject A a))
                      (amounts_of_stage k ps) (Stage.totalValue e) |}.
Proof.
  unfold amounts_of_stage.
  induction ps as [| p ps IH]; intros e; simpl.
  - destruct e. simpl. now rewrite Nat.add_0_r.
  - unfold tally_entry at 2. destruct (fst p =? k); simpl.
    + rewrite IH. simpl. f_equal. f_equal. lia.
    + apply IH.
Qed.

Lemma fold_tally_entry_new (ps : list (string * number)) k :
  fold_left (tally_entry A k) ps None =
  if inherited k then None
  else match amounts_of_stage k ps with
       | [] => None
       | l => Some {| Stage.count := List.length l;
                      Stage.totalValue := left_sum A l |}
       end.
Proof.
  unfold amounts_of_stage, left_sum.
  induction ps as [| p ps IH]; simpl.
  - destruct (inherited k); reflexivity.
  - unfold tally_entry at 2. destruct (fst p =? k); simpl; [| exact IH].
    destruct (inherited k); [exact IH |].
    now rewrite fold_tally_entry_own.
Qed.

End Computes.

Lemma resolved_pairs (rt : runtime) (deals : list value) :
  Forall (fun deal => exists p, resolve rt deal = Return p) deals ->
  map (resolve rt) deals = map Return (pairs rt deals).
Proof.
  unfold pairs. induction 1 as [| deal deals [p Hp] _ IH]; simpl; [reflexivity |].
  now rewrite Hp, IH.
Qed.

(** X18: What the aggregation computes. When the callback resolves every
    deal (its [properties] is neither [undefined] nor [null], and its
    [dealstage] and [amount] convert to strings): [totalDeals] is
    the number of deals; the grand total is the sum of all amounts, added
    left to right from 0; a stage has an entry exactly when it is the
    stage of some deal and is not a name every object inherits, and the
    entry holds the number of deals of that stage and the sum of their
    amounts, added in the order of the deals. *)
Theorem aggregation_computes (rt : runtime) (A : arith) (deals : list value) :
  Forall (fun deal => exists p, resolve rt deal = Return p) deals ->
  exists r,
    result (aggregate rt A (JArr deals)) = Return r /\
    totalDeals r = List.length deals /\
    grandTotal r = left_sum A (map snd (pairs rt deals)) /\
    forall stage,
      lookup stage (perStage r) =
      if inherited stage then None
      else match amounts_of_stage stage (pairs rt deals) with
           | [] => None
           | l => Some {| Stage.count := List.length l;
                          Stage.totalValue := left_sum A l |}
           end.
Proof.
  intros H. rewrite aggregate_run, (resolved_pairs rt deals H), run_of_pairs.
  eexists. split; [reflexivity |]. cbn [totalDeals grandTotal perStage].
  repeat split.
  - now rewrite totalValue_fold_tally.
  - intros stage. now rewrite lookup_fold_tally, <- fold_tally_entry_new.
Qed.

Lemma aggregation_computes_witness :
  exists r,
    result (aggregate (Sample.answering 200 "{}" JNull) binary64
              (JArr [ Sample.deal "won" "0.1"; Sample.deal "lost" "7";
                      Sample.deal "won" "0.2" ])) = Return r /\
    lookup "won" (perStage r) =
    Some {| Stage.count := 2;
            Stage.totalValue :=
              JS.add (JS.add (of_Z 0) (parse_float_string "0.1"))
                     (parse_float_string "0.2") |}.
Proof.
  destruct (aggregation_computes (Sample.answering 200 "{}" JNull) binary64
              [ Sample.deal "won" "0.1"; Sample.deal "lost" "7";
                Sample.deal "won" "0.2" ]) as (r & Hr & _ & _ & Hs).
  - repeat constructor; eexists; reflexivity.
  - exists r. split; [exact Hr |]. rewrite (Hs "won"). reflexivity.
Defined.

(** ** Deals that break the summary *)

Lemma run_app (A : arith) rs1 rs2 : forall st,
  run A (rs1 ++ rs2) st =
  match run A rs1 st with
  | Throw e => Throw e
  | Return st' => run A rs2 st'
  end.
Proof.
  induction rs1 as [| [e | [stage amount]] rs1 IH]; intros st; simpl;
    [reflexivity | reflexivity | apply IH].
Qed.

(** X19: The aggregation stops at the first deal the callback cannot resolve:
    its error is the error of the whole aggregation, whatever comes after
    it, and no partial summary is returned. *)
Theorem aggregation_stops_at_the_first_bad_deal
  (rt : runtime) (A : arith) (good : list value) (bad : value)
  (rest : list value) (e : js_error) :
  Forall (fun deal => exists p, resolve rt deal = Return p) good ->
  resolve rt bad = Throw e ->
  aggregate rt A (JArr (good ++ bad :: rest)) = ([], Throw e).
Proof.
  intros Hg Hb. apply M_ext; [apply silent_aggregate |].
  rewrite aggregate_run, map_app, run_app.
  rewrite (resolved_pairs rt good Hg), run_of_pairs. simpl.
  now rewrite Hb.
Qed.

Lemma aggregation_stops_at_the_first_bad_deal_witness :
  aggregate (Sample.answering 200 "{}" JNull) binary64
    (JArr ([Sample.deal "won" "100"] ++ JNull :: [JObj []])) =
  ([], Throw (Error "Cannot read properties of null (reading 'properties')")).
Proof.
  apply (aggregation_stops_at_the_first_bad_deal
           (Sample.answering 200 "{}" JNull) binary64
           [Sample.deal "won" "100"] JNull [JObj []]).
  - repeat constructor. eexists. reflexivity.
  - reflexivity.
Defined.

Lemma get_outcome (rt : runtime) (v : value) (k : string) :
  (nullish v = true /\ get rt v k = throw (TypeError rt (ReadOfNullish v k))) \/
  (nullish v = false /\ exists x, get rt v k = ret x).
Proof.
  destruct v; simpl; try (right; split; [reflexivity |]; eexists; reflexivity);
    try (left; split; reflexivity).
  destruct (lookup k props); right; (split; [reflexivity |]);
    eexists; reflexivity.
Qed.

Lemma convertible_or_else_eq (v : value) (s : string) :
  convertible (or_else v (JStr s)) = convertible v.
Proof.
  unfold or_else. destruct (truthy v) eqn:E; [reflexivity |].
  destruct v; try discriminate E; reflexivity.
Qed.

(** The callback's outcome, read off the three reads and the two
    conversions. *)
Lemma resolve_outcome (rt : runtime) (deal : value) :
  resolve rt deal =
  match result (get rt deal "properties") with
  | Throw e => Throw e
  | Return p =>
      match result (get rt p "dealstage"), result (get rt p "amount") with
      | Return s, Return a =>
          if convertible s && convertible a
          then Return (to_string (number_to_string rt) (or_else s (JStr "Unknown")),
                       number_or (parse_float_string (to_string (number_to_string rt) a))
                                 (of_Z 0))
          else Throw (TypeError rt CannotConvert)
      | Throw e, _ => Throw e
      | Return _, Throw e => Throw e
      end
  end.
Proof.
  unfold resolve, stage_of, stage_value, amount_of, parseFloat.
  destruct (get_outcome rt deal "properties") as [(Hn & Ep) | (Hn & p & Ep)];
    rewrite !Ep; [reflexivity |].
  rewrite !bind_ret. cbn [result snd ret].
  destruct (get_outcome rt p "dealstage") as [(Hs & Es) | (Hs & s & Es)];
    rewrite !Es; [reflexivity |].
  rewrite !bind_ret. cbn [result snd ret].
  destruct (get_outcome rt p "amount") as [(Ha & Ea) | (Ha & a & Ea)];
    [congruence |].
  rewrite !Ea, !bind_ret. cbn [result snd ret].
  unfold ToString. rewrite (convertible_or_else_eq s "Unknown").
  destruct (convertible s), (convertible a); reflexivity.
Qed.

(** X20: Which deals the callback cannot resolve: [undefined] and [null]
    (the read of [properties] fails), the deals whose [properties] is
    [undefined] or [null] (the read of [dealstage] fails), and the deals
    whose [dealstage] or [amount] does not convert to a string (the
    conversion in [parseFloat] or in [summary[stage]] fails); every
    other deal resolves. *)
Theorem deals_that_break_the_summary
  (rt : runtime) (deal : value) (e : js_error) :
  resolve rt deal = Throw e <->
  (nullish deal = true /\
   e = Error (type_error_message rt (ReadOfNullish deal "properties"))) \/
  (nullish deal = false /\
   exists p,
     result (get rt deal "properties") = Return p /\
     nullish p = true /\
     e = Error (type_error_message rt (ReadOfNullish p "dealstage"))) \/
  (nullish deal = false /\
   exists p stage amount,
     result (get rt deal "properties") = Return p /\
     result (get rt p "dealstage") = Return stage /\
     result (get rt p "amount") = Return amount /\
     (convertible stage = false \/ convertible amount = false) /\
     e = Error (type_error_message rt CannotConvert)).
Proof.
  rewrite resolve_outcome.
  destruct (get_outcome rt deal "properties") as [(Hn & Ep) | (Hn & p & Ep)];
    rewrite !Ep; cbn [result snd ret throw].
  - split.
    + intros H. inversion H. left. now split.
    + intros [(_ & ->) | [(Hf & _) | (Hf & _)]]; [reflexivity | congruence ..].
  - destruct (get_outcome rt p "dealstage") as [(Hs & Es) | (Hs & s & Es)];
      rewrite !Es; cbn [result snd ret throw].
    + split.
      * intros H. inversion H. right. left. split; [exact Hn |].
        exists p. now repeat split.
      * intros [(Hf & _) | [(_ & q & Hq & _ & ->) | (_ & q & s & a & Hq & Hqs & _)]].
        -- congruence.
        -- inversion Hq. reflexivity.
        -- inversion Hq. subst q. rewrite Es in Hqs. discriminate Hqs.
    + destruct (get_outcome rt p "amount") as [(Ha & Ea) | (Ha & a & Ea)];
        [congruence |].
      rewrite !Ea. cbn [result snd ret throw]. split.
      * intros H. right. right. split; [exact Hn |]. exists p, s, a.
        rewrite Es, Ea.
        destruct (convertible s), (convertible a);
          simpl in H; try discriminate H; inversion H; tauto.
      * intros [(Hf & _) | [(_ & q & Hq & Hqn & _)
                           | (_ & q & s' & a' & Hq & Hqs & Hqa & Hc & ->)]].
        -- congruence.
        -- inversion Hq. congruence.
        -- inversion Hq. subst q. rewrite Es in Hqs. rewrite Ea in Hqa.
           inversion Hqs. inversion Hqa. subst s' a'.
           destruct Hc as [-> | ->]; [reflexivity |].
           now rewrite andb_false_r.
Qed.

Lemma deals_that_break_the_summary_witness :
  resolve (Sample.answering 200 "{}" JNull) (JObj [("id", JStr "1")]) =
  Throw (Error "Cannot read properties of undefined (reading 'dealstage')") /\
  resolve (Sample.answering 200 "{}" JNull)
    (JObj [("properties",
            JObj [("dealstage", JObj [("toString", JNum (of_Z 1))]);
                  ("amount", JStr "100")])]) =
  Throw (Error "Cannot convert object to primitive value").
Proof.
  split.
  - apply (proj2 (deals_that_break_the_summary (Sample.answering 200 "{}" JNull)
                    (JObj [("id", JStr "1")])
                    (Error "Cannot read properties of undefined (reading 'dealstage')"))).
    right. left. split; [reflexivity |]. exists JUndefined. repeat split.
  - apply (proj2 (deals_that_break_the_summary (Sample.answering 200 "{}" JNull)
                    (JObj [("properties",
                            JObj [("dealstage", JObj [("toString", JNum (of_Z 1))]);
                                  ("amount", JStr "100")])])
                    (Error "Cannot convert object to primitive value"))).
    right. right. split; [reflexivity |].
    exists (JObj [("dealstage", JObj [("toString", JNum (of_Z 1))]);
                  ("amount", JStr "100")]),
           (JObj [("toString", JNum (of_Z 1))]), (JStr "100").
    repeat split. now left.
Defined.

(** ** Invariants of the summary *)

Lemma assign_keys {X : Type} (k : string) (v : X) (l : list (string * X)) :
  map fst (assign k v l) =
  match lookup k l with
  | Some _ => map fst l
  | None => (map fst l ++ [k])%list
  end.
Proof.
  induction l as [| [k0 v0] l IH]; simpl; [reflexivity |].
  destruct (String.eqb_spec k0 k) as [-> | Hne]; simpl; [reflexivity |].
  rewrite IH. destruct (lookup k l); reflexivity.
Qed.

Lemma lookup_present {X : Type} (k : string) (l : list (string * X)) :
  In k (map fst l) -> lookup k l <> None.
Proof.
  induction l as [| [k0 v0] l IH]; simpl; [tauto |].
  destruct (String.eqb_spec k0 k) as [-> | Hne]; [discriminate |].
  intros [H | H]; [congruence | now apply IH].
Qed.

Lemma assign_NoDup {X : Type} (k : string) (v : X) (l : list (string * X)) :
  NoDup (map fst l) -> NoDup (map fst (assign k v l)).
Proof.
  intros H. rewrite assign_keys.
  destruct (lookup k l) eqn:E; [exact H |].
  apply NoDup_app; [exact H | repeat constructor; simpl; tauto |].
  intros x Hx [Hk | []]. subst x. now apply (lookup_present k l).
Qed.

Section Invariants.
Variable A : arith.

Lemma well_kept_tally st stage amount :
  well_kept st -> well_kept (tally A st stage amount).
Proof.
  intros [Hd He]. split.
  - rewrite tally_summary.
    destruct (lookup stage (summary st)); [now apply assign_NoDup |].
    destruct (inherited stage); [exact Hd | now apply assign_NoDup].
  - intros k e. rewrite lookup_tally.
    destruct (String.eqb_spec stage k) as [-> | _]; [| apply He].
    destruct (lookup k (summary st)) as [e0 |] eqn:E.
    + intros H. inversion H; subst. simpl. split; [| lia].
      now destruct (He k e0 E).
    + destruct (inherited k) eqn:I; [discriminate |].
      intros H. inversion H; subst. simpl. split; [reflexivity | lia].
Qed.

Lemma well_kept_run rs : forall st st',
  well_kept st -> run A rs st = Return st' -> well_kept st'.
Proof.
  induction rs as [| [e | [stage amount]] rs IH]; intros st st' Hw Hrun;
    simpl in Hrun.
  - inversion Hrun. now subst.
  - discriminate.
  - eapply IH; [| exact Hrun]. now apply well_kept_tally.
Qed.

End Invariants.

(** X21: Whenever the aggregation returns, the stages of its summary are
    distinct, none of them is a name every object inherits, and every
    stage counts at least one deal. *)
Theorem summary_is_well_kept
  (rt : runtime) (A : arith) (results : value) (r : report A) :
  result (aggregate rt A results) = Return r ->
  NoDup (map fst (perStage r)) /\
  forall stage e,
    lookup stage (perStage r) = Some e ->
    inherited stage = false /\ (1 <= Stage.count e)%nat.
Proof.
  intros H. destruct results as [| | | | | deals |]; try discriminate H.
  rewrite aggregate_run in H.
  destruct (run A (map (resolve rt) deals) _) as [e | st] eqn:E;
    [discriminate |].
  inversion H; subst. cbn [perStage].
  apply (well_kept_run A _ _ st) in E; [exact E |].
  split; [constructor | intros k e H0; discriminate H0].
Qed.

Lemma summary_is_well_kept_witness :
  NoDup (map fst [ ("won", {| Stage.count := 2%nat; Stage.totalValue := of_Z 150 |});
                   ("Unknown", {| Stage.count := 1%nat; Stage.totalValue := of_Z 0 |}) ]).
Proof.
  apply (summary_is_well_kept (Sample.answering 200 "{}" JNull) binary64
           (JArr [ Sample.deal "won" "100"; Sample.deal "won" "50";
                   Sample.deal EmptyString "bad" ])
           (Build_report binary64
              [ ("won", {| Stage.count := 2; Stage.totalValue := of_Z 150 |});
                ("Unknown", {| Stage.count := 1; Stage.totalValue := of_Z 0 |}) ]
              3 (of_Z 150))).
  reflexivity.
Defined.

Lemma sum_counts_fold_tally (A : arith) (ps : list (string * number)) :
  forall st,
    well_kept st ->
    sum_counts (summary (fold_left (fun s p => tally A s (fst p) (snd p)) ps st)) =
    (sum_counts (summary st)
     + List.length (filter (fun p => negb (inherited (fst p))) ps))%nat.
Proof.
  induction ps as [| [stage amount] ps IH]; intros st Hw;
    cbn [fold_left filter fst snd]; [simpl; lia |].
  rewrite (IH _ (well_kept_tally A st stage amount Hw)).
  destruct (inherited stage) eqn:I; cbn [negb List.length].
  - rewrite tally_summary, I.
    destruct (lookup stage (summary st)) as [e |] eqn:E; [| reflexivity].
    destruct Hw as [_ He]. destruct (He stage e E). congruence.
  - rewrite (tally_sum_counts A st stage amount I). lia.
Qed.

(** X22: A deal whose stage is a name every object inherits (["constructor"],
    ["toString"], ["__proto__"], ...) is counted in [totalDeals] and in
    the grand total but in no stage: the counts of the stages add up to
    the number of the other deals. *)
Theorem inherited_stage_names_are_dropped
  (rt : runtime) (A : arith) (deals : list value) :
  Forall (fun deal => exists p, resolve rt deal = Return p) deals ->
  exists r,
    result (aggregate rt A (JArr deals)) = Return r /\
    totalDeals r = List.length (pairs rt deals) /\
    grandTotal r = left_sum A (map snd (pairs rt deals)) /\
    sum_counts (perStage r) =
      List.length (filter (fun p => negb (inherited (fst p))) (pairs rt deals)) /\
    forall stage, inherited stage = true -> lookup stage (perStage r) = None.
Proof.
  intros H.
  rewrite aggregate_run, (resolved_pairs rt deals H), run_of_pairs.
  eexists. split; [reflexivity |]. cbn [totalDeals grandTotal perStage].
  repeat split.
  - rewrite <- (length_map (resolve rt) deals), (resolved_pairs rt deals H).
    apply length_map.
  - now rewrite totalValue_fold_tally.
  - rewrite sum_counts_fold_tally; [reflexivity |].
    split; [constructor | intros k e H0; discriminate H0].
  - intros stage Hi. now rewrite lookup_fold_tally, fold_tally_entry_new, Hi.
Qed.

Lemma inherited_stage_names_are_dropped_witness :
  exists r,
    result (aggregate (Sample.answering 200 "{}" JNull) binary64
              (JArr [ Sample.deal "won" "100"; Sample.deal "constructor" "7" ]))
      = Return r /\
    totalDeals r = 2%nat /\
    sum_counts (perStage r) = 1%nat /\
    lookup "constructor" (perStage r) = None.
Proof.
  destruct (inherited_stage_names_are_dropped (Sample.answering 200 "{}" JNull)
              binary64 [ Sample.deal "won" "100"; Sample.deal "constructor" "7" ])
    as (r & Hr & Hn & _ & Hc & Hi).
  - repeat constructor; eexists; reflexivity.
  - exists r. repeat split; [exact Hr | exact Hn | exact Hc |].
    apply Hi. reflexivity.
Defined.

(** ** Amounts *)

(** X23: The amount the callback adds is never NaN and never a negative zero:
    whatever the [amount] field holds, a value [parseFloat] reads as NaN
    or as a zero counts as [+0]. *)
Theorem amounts_are_numbers (rt : runtime) (deal : value) (amount : number) :
  result (amount_of rt deal) = Return amount ->
  amount <> S754_nan /\
  amount <> S754_zero true /\
  (falsy_number amount = true -> amount = S754_zero false).
Proof.
  unfold amount_of. rewrite !result_bind.
  destruct (result (get rt deal "properties")) as [e | p]; [discriminate |].
  rewrite result_bind.
  destruct (result (get rt p "amount")) as [e | v]; [discriminate |].
  rewrite result_bind.
  destruct (result (parseFloat rt v)) as [e | x]; [discriminate |].
  simpl. intros H. inversion H; subst. unfold number_or.
  destruct x; simpl; repeat split; try discriminate; auto.
Qed.

Lemma amounts_are_numbers_witness :
  number_or (parse_float_string "-0") (of_Z 0) <> S754_zero true.
Proof.
  apply (amounts_are_numbers (Sample.answering 200 "{}" JNull)
           (Sample.deal "won" "-0")
           (number_or (parse_float_string "-0") (of_Z 0))).
  reflexivity.
Defined.

(** ** Sums in binary64 are NaN only through opposite infinities *)

Lemma shr_1_nonneg (mrs : shr_record) :
  (0 <= shr_m mrs)%Z -> (0 <= shr_m (shr_1 mrs))%Z.
Proof.
  destruct mrs as [m r s]. simpl.
  destruct m as [| [p | p |] | [p | p |]]; simpl; lia.
Qed.

Lemma iter_shr_1_nonneg (p : positive) : forall mrs,
  (0 <= shr_m mrs)%Z -> (0 <= shr_m (iter_pos shr_1 p mrs))%Z.
Proof.
  induction p as [p IH | p IH |]; intros mrs H; simpl.
  - apply IH, IH, shr_1_nonneg, H.
  - apply IH, IH, H.
  - apply shr_1_nonneg, H.
Qed.

Lemma shr_fexp_nonneg (m e : Z) (l : location) :
  (0 <= m)%Z -> (0 <= shr_m (fst (shr_fexp JS.prec JS.emax m e l)))%Z.
Proof.
  intros H. unfold shr_fexp, shr.
  assert (H0 : (0 <= shr_m (shr_record_of_loc m l))%Z).
  { destruct l as [| []]; exact H. }
  destruct (fexp JS.prec JS.emax (Zdigits2 m + e) - e)%Z; simpl; auto.
  now apply iter_shr_1_nonneg.
Qed.

Lemma round_nearest_even_nonneg (m : Z) (l : location) :
  (0 <= m)%Z -> (0 <= round_nearest_even m l)%Z.
Proof.
  intros H. destruct l as [| []]; simpl; try lia.
  destruct (Z.even m); lia.
Qed.

Lemma binary_round_aux_not_nan (sx : bool) (mx ex : Z) (lx : location) :
  (0 <= mx)%Z -> binary_round_aux JS.prec JS.emax sx mx ex lx <> S754_nan.
Proof.
  intros H. unfold binary_round_aux.
  pose proof (shr_fexp_nonneg mx ex lx H) as H1.
  destruct (shr_fexp JS.prec JS.emax mx ex lx) as [mrs' e'].
  simpl in H1.
  pose proof (shr_fexp_nonneg
                (round_nearest_even (shr_m mrs') (loc_of_shr_record mrs')) e'
                loc_Exact (round_nearest_even_nonneg _ _ H1)) as H2.
  destruct (shr_fexp JS.prec JS.emax _ e' loc_Exact) as [mrs'' e''].
  simpl in H2.
  destruct (shr_m mrs'') as [| p | p]; try discriminate; [| lia].
  destruct (e'' <=? JS.emax - JS.prec)%Z; discriminate.
Qed.

Lemma binary_normalize_not_nan (m e : Z) (s : bool) :
  binary_normalize JS.prec JS.emax m e s <> S754_nan.
Proof.
  unfold binary_normalize, binary_round.
  destruct m as [| p | p]; [discriminate | |];
    destruct (shl_align _ _ _) as [mz ez];
    apply binary_round_aux_not_nan; lia.
Qed.

(** An addition gives NaN only from a NaN, or from two infinities of
    opposite signs. *)
Lemma add_nan (x y : number) :
  JS.add x y = S754_nan ->
  x = S754_nan \/ y = S754_nan \/
  exists s, x = S754_infinity s /\ y = S754_infinity (negb s).
Proof.
  unfold JS.add, SFadd.
  destruct x as [sx | sx | | sx mx ex], y as [sy | sy | | sy my ey];
    try (intros _; now auto); try discriminate.
  - destruct sx, sy; discriminate.
  - destruct sx, sy; try discriminate; intros _; right; right;
      [exists true | exists false]; now split.
  - intros H. exfalso. revert H. apply binary_normalize_not_nan.
Qed.

Lemma left_sum_not_nan (l : list number) : forall acc : number,
  acc <> S754_nan ->
  Forall (fun a => a <> S754_nan /\ not_infinite a = true) l ->
  fold_left (fun t a => plus binary64 t (inject binary64 a)) l acc <> S754_nan.
Proof.
  induction l as [| a l IH]; intros acc Hacc Hl; simpl; [exact Hacc |].
  inversion Hl as [| ? ? [Ha Hi] Hl']; subst.
  apply IH; [| exact Hl'].
  intros H. destruct (add_nan acc a H) as [H1 | [H1 | (s & _ & H1)]];
    try contradiction.
  rewrite H1 in Hi. discriminate.
Qed.

Lemma resolved_amount (rt : runtime) (deal : value) (stage : string) (a : number) :
  resolve rt deal = Return (stage, a) ->
  a <> S754_nan.
Proof.
  unfold resolve. rewrite result_bind.
  destruct (result (stage_of rt deal)) as [e | s]; [discriminate |].
  rewrite result_bind. unfold amount_of at 1. rewrite !result_bind.
  destruct (result (get rt deal "properties")) as [e | p]; [discriminate |].
  rewrite result_bind.
  destruct (result (get rt p "amount")) as [e | v]; [discriminate |].
  rewrite result_bind.
  destruct (result (parseFloat rt v)) as [e | x]; [discriminate |].
  simpl. intros H. inversion H; subst. unfold number_or.
  destruct x; simpl; discriminate.
Qed.

Lemma pairs_amounts (rt : runtime) (deals : list value) :
  Forall (fun p => snd p <> S754_nan) (pairs rt deals).
Proof.
  unfold pairs. induction deals as [| deal deals IH]; simpl; [constructor |].
  destruct (resolve rt deal) as [e | [stage a]] eqn:E; simpl; [exact IH |].
  constructor; [| exact IH]. simpl. now apply (resolved_amount rt deal stage).
Qed.

(** X24: As long as no amount is an infinity (["Infinity"], or a numeral too
    large for binary64), no total of the summary is NaN: neither the
    grand total nor any stage's. *)
Theorem totals_are_numbers (rt : runtime) (deals : list value) :
  Forall (fun deal => exists p, resolve rt deal = Return p) deals ->
  Forall (fun p => not_infinite (snd p) = true) (pairs rt deals) ->
  exists r,
    result (aggregate rt binary64 (JArr deals)) = Return r /\
    grandTotal r <> S754_nan /\
    forall stage e,
      lookup stage (perStage r) = Some e -> Stage.totalValue e <> S754_nan.
Proof.
  intros H Hfin.
  assert (Hall : Forall (fun p => snd p <> S754_nan /\ not_infinite (snd p) = true)
                        (pairs rt deals)).
  { pose proof (pairs_amounts rt deals) as Hn.
    rewrite Forall_forall in *. intros p Hp. split; auto. }
  rewrite aggregate_run, (resolved_pairs rt deals H), run_of_pairs.
  eexists. split; [reflexivity |]. cbn [totalDeals grandTotal perStage]. split.
  - rewrite totalValue_fold_tally. apply left_sum_not_nan; [discriminate |].
    rewrite Forall_forall in *. intros a Ha. apply in_map_iff in Ha.
    destruct Ha as (p & <- & Hp). now apply Hall.
  - intros stage e. rewrite lookup_fold_tally, fold_tally_entry_new.
    destruct (inherited stage); [discriminate |].
    destruct (amounts_of_stage stage (pairs rt deals)) as [| a l] eqn:E;
      [discriminate |].
    intros He. inversion He; subst. cbn [Stage.totalValue]. unfold left_sum.
    apply left_sum_not_nan; [discriminate |].
    rewrite <- E. unfold amounts_of_stage.
    rewrite Forall_forall in *. intros x Hx. apply in_map_iff in Hx.
    destruct Hx as (p & <- & Hp). apply filter_In in Hp. now apply Hall.
Qed.

Lemma totals_are_numbers_witness :
  exists r,
    result (aggregate (Sample.answering 200 "{}" JNull) binary64
              (JArr [ Sample.deal "won" "1e308"; Sample.deal "won" "1e308";
                      Sample.deal "won" "-1e308" ])) = Return r /\
    grandTotal r <> S754_nan.
Proof.
  destruct (totals_are_numbers (Sample.answering 200 "{}" JNull)
              [ Sample.deal "won" "1e308"; Sample.deal "won" "1e308";
                Sample.deal "won" "-1e308" ]) as (r & Hr & Hg & _).
  - repeat constructor; eexists; reflexivity.
  - repeat constructor.
  - exists r. now split.
Defined.

(** * The catalogue and the dispatcher *)

Lemma lookup_app {X : Type} (k : string) (l l' : list (string * X)) :
  lookup k (l ++ l') =
  match lookup k l with
  | Some v => Some v
  | None => lookup k l'
  end.
Proof.
  induction l as [| [k0 v0] l IH]; simpl; [reflexivity |].
  destruct (k0 =? k); [reflexivity | exact IH].
Qed.

Lemma field_supplied (k k' : string) (v : value) (props : list (string * value)) :
  lookup k props = None ->
  field k' (props ++ [(k, v)]) = if k =? k' then v else field k' props.
Proof.
  intros H. unfold field. rewrite lookup_app. cbn [lookup].
  destruct (String.eqb_spec k k') as [<- | _]; [now rewrite H |].
  destruct (lookup k' props); reflexivity.
Qed.

(** X25: The defaults the catalogue advertises are the ones the dispatcher
    applies: for every tool and every property whose schema declares a
    default, a call that omits the argument does exactly what the call
    that supplies the default does: the same request and the same
    result. *)
Theorem omitted_argument_is_its_default
  (rt : runtime) (d : Tool.definition) (k : string) (p : Schema.property)
  (v : value) (props : list (string * value)) :
  In d list_tools ->
  lookup k (Schema.properties (Tool.inputSchema d)) = Some p ->
  Schema.default p = Some v ->
  lookup k props = None ->
  call_tool rt {| name := Tool.name d; arguments := JObj (props ++ [(k, v)]) |} =
  call_tool rt {| name := Tool.name d; arguments := JObj props |}.
Proof.
  intros Hd Hp Hv Hk. simpl in Hd.
  destruct Hd as [<- | [<- | [<- | [<- | [<- | [<- | []]]]]]];
    cbn [Tool.inputSchema Schema.properties lookup] in Hp;
    repeat match type of Hp with
           | (if (?s =? k)%string then _ else _) = _ =>
               destruct (String.eqb_spec s k) as [<- | _]
           end;
    try discriminate Hp;
    inversion Hp; subst p; cbn [Schema.default string_property] in Hv;
    try discriminate Hv; inversion Hv; subst v;
    unfold call_tool; cbn [name arguments Tool.name]; f_equal.
  - change (dispatch rt "search_contacts" ?a) with (search_contacts rt a).
    unfold search_contacts. rewrite !get_JObj, !bind_ret.
    rewrite !(field_supplied "limit" _ _ props Hk).
    cbn [String.eqb Ascii.eqb Bool.eqb].
    unfold field. rewrite !Hk. reflexivity.
  - change (dispatch rt "search_deals" ?a) with (search_deals rt a).
    unfold search_deals. rewrite !get_JObj, !bind_ret.
    rewrite !(field_supplied "limit" _ _ props Hk).
    cbn [String.eqb Ascii.eqb Bool.eqb].
    unfold field. rewrite !Hk. reflexivity.
  - change (dispatch rt "create_deal" ?a) with (create_deal rt a).
    unfold create_deal, deal_properties. rewrite !get_JObj, !bind_ret.
    rewrite !(field_supplied "pipeline" _ _ props Hk).
    cbn [String.eqb Ascii.eqb Bool.eqb].
    unfold field. rewrite !Hk. reflexivity.
Qed.

Lemma omitted_argument_is_its_default_witness :
  call_tool (Sample.answering 200 "{}" (Sample.search_result []))
    {| name := "search_contacts";
       arguments := JObj ([("query", JStr "bob")] ++ [("limit", JNum (of_Z 10))]) |} =
  call_tool (Sample.answering 200 "{}" (Sample.search_result []))
    {| name := "search_contacts"; arguments := JObj [("query", JStr "bob")] |}.
Proof.
  apply (omitted_argument_is_its_default
           (Sample.answering 200 "{}" (Sample.search_result []))
           {| Tool.name := "search_contacts";
              Tool.description := "Search for contacts in HubSpot by name, email, or company";
              Tool.inputSchema :=
                {| Schema.properties :=
                     [ ("query", string_property "Search query (name, email, company, etc.)");
                       ("limit",
                        {| Schema.type := "number";
                           Schema.description :=
                             "Maximum number of results to return (default: 10)";
                           Schema.default := Some (JNum (of_Z 10)) |}) ];
                   Schema.required := ["query"] |} |}
           "limit"
           {| Schema.type := "number";
              Schema.description := "Maximum number of results to return (default: 10)";
              Schema.default := Some (JNum (of_Z 10)) |}
           (JNum (of_Z 10)) [("query", JStr "bob")]).
  - left. reflexivity.
  - reflexivity.
  - reflexivity.
  - reflexivity.
Defined.

(** X26: The dispatcher translates exactly the advertised names: a name can
    lead to an outbound call, for some arguments and some answers of the
    network, if and only if it is in the catalogue. *)
Theorem advertised_names_are_translated (name : string) :
  In name advertised_names <->
  exists rt args,
    requests (call_tool rt {| name := name; arguments := args |}) <> [].
Proof.
  split.
  - intros H.
    exists (Sample.answering 200 "{}" (JObj [])),
      (JObj [("contact_id", JStr "1")]).
    simpl in H.
    destruct H as [<- | [<- | [<- | [<- | [<- | [<- | []]]]]]];
      vm_compute; discriminate.
  - intros (rt & args & H).
    destruct (in_dec string_dec name advertised_names) as [Hin | Hout];
      [exact Hin |].
    exfalso. apply H. rewrite call_tool_requests.
    now rewrite (dispatch_unknown rt name args Hout).
Qed.

Lemma advertised_names_are_translated_witness :
  ~ In "delete_contact" advertised_names.
Proof.
  intros H.
  destruct (proj1 (advertised_names_are_translated "delete_contact") H)
    as (rt & args & Hq).
  apply Hq. reflexivity.
Defined.

(** A limit of 0 is falsy: the search is sent with the default. *)
Lemma search_contacts_request_witness :
  requests (call_tool (Sample.answering 200 "{}" (Sample.search_result []))
              (Sample.call "search_contacts"
                 [("query", JStr "bob"); ("limit", JNum (of_Z 0))])) =
  requests (call_tool (Sample.answering 200 "{}" (Sample.search_result []))
              (Sample.call "search_contacts"
                 [("query", JStr "bob"); ("limit", JNum (of_Z 10))])).
Proof.
  destruct (search_contacts_request
              (Sample.answering 200 "{}" (Sample.search_result []))
              [("query", JStr "bob"); ("limit", JNum (of_Z 0))])
    as (limit & Hq & _ & Hl).
  unfold Sample.call. rewrite Hq, (Hl (JNum (of_Z 0)) eq_refl). reflexivity.
Defined.

(** An empty [pipeline_stage] is falsy: the search is sent unfiltered. *)
Lemma search_deals_request_witness :
  requests (call_tool (Sample.answering 200 "{}" (Sample.search_result []))
              (Sample.call "search_deals" [("pipeline_stage", JStr EmptyString)])) =
  requests (call_tool (Sample.answering 200 "{}" (Sample.search_result []))
              (Sample.call "search_deals" [])).
Proof.
  destruct (search_deals_request
              (Sample.answering 200 "{}" (Sample.search_result []))
              [("pipeline_stage", JStr EmptyString)])
    as (filterGroups & limit & Hq & Hl & _ & Hf & _).
  unfold Sample.call.
  rewrite Hq, (Hl eq_refl), (Hf (or_intror eq_refl)). reflexivity.
Defined.
